(** * The cardiac dashboard: [compute_avg_age], the scenario it is wired
      into, and the two GUI callbacks of [app.py]

    The development follows [app.py] top to bottom:

    - binary64 arithmetic, as pandas and numpy perform it ([F64]);
    - the part of pandas the program uses: typed columns, [df[col]],
      boolean-mask selection, [.empty], [.mean()] and [round] ([Pandas]);
    - the load-time normalisation of the [sex] column (lines 22-23);
    - [compute_avg_age] (lines 29-39);
    - the data nodes, the task and the scenario of lines 44-55, with the
      orchestration contract of the design document;
    - the callbacks [update_dash] and [save_scenario] (lines 75-107).

    Python exceptions are values of [result]; the callbacks, which assign to
    the GUI state and call into the orchestrator, live in a state-and-error
    monad over an explicit [World]. *)

From Stdlib Require Import ZArith Lia SpecFloat.
From stdpp Require Import base option list sorting strings gmap.

Local Open Scope Z_scope.

(** ** Python exceptions *)

Inductive exn :=
  | KeyError (key : string)
  | TypeError
  | AttributeError
  | ValueError
  | StateError.

Inductive result (A : Type) :=
  | Ok (a : A)
  | Raise (e : exn).
Arguments Ok {A} a.
Arguments Raise {A} e.

#[export] Instance result_ret : MRet result := fun _ a => Ok a.
#[export] Instance result_bind : MBind result := fun _ _ f r =>
  match r with
  | Ok a => f a
  | Raise e => Raise e
  end.
#[export] Instance result_fmap : FMap result := fun _ _ f r =>
  match r with
  | Ok a => Ok (f a)
  | Raise e => Raise e
  end.

(** ** IEEE 754 binary64, the arithmetic behind [float] and [numpy.float64] *)

Module F64.

Definition prec : Z := 53.
Definition emax : Z := 1024.

(** The double nearest to an integer ([float(z)], an [int64] cast to
    [float64]). *)
Definition of_Z (z : Z) : spec_float := binary_normalize prec emax z 0 false.

Definition mul : spec_float -> spec_float -> spec_float := SFmul prec emax.
Definition div : spec_float -> spec_float -> spec_float := SFdiv prec emax.

Definition is_nan (x : spec_float) : bool :=
  match x with S754_nan => true | _ => false end.

(** Nearest integer to [m / d], ties to the even one ([0 < d]). *)
Definition div_half_even (m d : Z) : Z :=
  let q := m / d in
  match 2 * (m mod d) ?= d with
  | Lt => q
  | Gt => q + 1
  | Eq => if Z.even q then q else q + 1
  end.

(** [rint]: the nearest integral double, ties to even, the sign kept
    (so that [rint (-0.3)] is [-0.0]). *)
Definition rint (x : spec_float) : spec_float :=
  match x with
  | S754_finite s m e =>
      if 0 <=? e then x
      else binary_normalize prec emax
             (cond_Zopp s (div_half_even (Z.pos m) (2 ^ (- e)))) 0 s
  | _ => x
  end.

(** Truncation toward zero, the cast of a finite double to an integer;
    [None] on infinities and NaN. *)
Definition trunc (x : spec_float) : option Z :=
  match x with
  | S754_zero _ => Some 0
  | S754_finite s m e =>
      Some (cond_Zopp s (if 0 <=? e then Z.pos m * 2 ^ e
                         else Z.pos m / 2 ^ (- e)))
  | _ => None
  end.

(** The double a decimal literal [m / 10^digits] denotes: the correctly
    rounded quotient of two exactly representable integers. *)
Definition decimal (m : Z) (digits : nat) : spec_float :=
  div (of_Z m) (of_Z (10 ^ Z.of_nat digits)).

(** [numpy]'s rounding to [decimals] places, which is what [round(x, n)]
    runs on the [numpy.float64] that [Series.mean] returns: scale by
    [10^decimals], [rint], scale back. *)
Definition np_round (x : spec_float) (decimals : nat) : spec_float :=
  let f := of_Z (10 ^ Z.of_nat decimals) in
  div (rint (mul x f)) f.

(** The builtin [float.__round__], for comparison: the exact binary
    value is rounded half-even to [ndigits] decimals and the decimal
    result read back as the nearest double. *)
Definition builtin_round (x : spec_float) (ndigits : nat) : spec_float :=
  match x with
  | S754_finite s m e =>
      let p := 10 ^ Z.of_nat ndigits in
      let r := if 0 <=? e then Z.pos m * 2 ^ e * p
               else div_half_even (Z.pos m * p) (2 ^ (- e)) in
      match r with
      | 0 => S754_zero s
      | _ => div (of_Z (cond_Zopp s r)) (of_Z p)
      end
  | _ => x
  end.

End F64.

(** ** Python values that flow through data nodes and the GUI state *)

Module Pandas.

(** A frame over the five columns the program touches.  A column may be
    absent ([df["age"]] then raises [KeyError]); when present it has the
    dtype of the input schema: [age], [sex], [chol] and [target] are
    [int64] columns, [sex_label] is an object column of strings with
    [None] for a missing value (NaN). *)
Record DataFrame := {
  index : list nat;
  age : option (list Z);
  sex : option (list Z);
  sex_label : option (list (option string));
  chol : option (list Z);
  target : option (list Z);
}.

(** [df[name]] for the columns read by the program. *)
Definition getitem {A} (name : string) (col : option (list A)) : result (list A) :=
  match col with
  | Some c => Ok c
  | None => Raise (KeyError name)
  end.

(** [len(df.columns)] *)
Definition ncols (df : DataFrame) : nat :=
  let present {A} (col : option A) : nat := if col is Some _ then 1%nat else 0%nat in
  (present (age df) + present (sex df) + present (sex_label df)
   + present (chol df) + present (target df))%nat.

(** [df.empty]: some axis has length zero. *)
Definition empty (df : DataFrame) : bool :=
  bool_decide (length (index df) = 0%nat) || bool_decide (ncols df = 0%nat).

(** [series == s] on the label column: element-wise, NaN equals nothing. *)
Definition eq_str (col : list (option string)) (s : string) : list bool :=
  (fun c => match c with Some l => String.eqb l s | None => false end) <$> col.

(** Keep the entries whose mask bit is set. *)
Fixpoint keep {A} (mask : list bool) (l : list A) : list A :=
  match mask, l with
  | b :: mask', x :: l' => if b then x :: keep mask' l' else keep mask' l'
  | _, _ => []
  end.

(** [df[mask]]: the rows whose mask bit is set, in every column. *)
Definition loc_mask (df : DataFrame) (mask : list bool) : DataFrame :=
  {| index := keep mask (index df);
     age := keep mask <$> age df;
     sex := keep mask <$> sex df;
     sex_label := keep mask <$> sex_label df;
     chol := keep mask <$> chol df;
     target := keep mask <$> target df |}.

Definition sum (l : list Z) : Z := foldr Z.add 0 l.

(** [Series.mean()] of an [int64] column: the sum, accumulated in
    binary64, over the count.  The sum is taken exactly and rounded
    once, which is what the accumulation yields while the partial sums
    stay below [2^53].  Over zero rows the quotient is [0.0 / 0.0], NaN. *)
Definition mean (l : list Z) : spec_float :=
  F64.div (F64.of_Z (sum l)) (F64.of_Z (Z.of_nat (length l))).

End Pandas.
Export Pandas.

Inductive pyval :=
  | PyNone
  | PyInt (z : Z)
  | PyFloat (f : spec_float)
  | PyStr (s : string)
  | PyFrame (df : DataFrame).

(** ** [compute_avg_age] (lines 29-39) *)

(** The conditional expression bound to [data]. *)
Definition select_rows (filtered_df : DataFrame) (gender_filter : string)
  : result DataFrame :=
  if String.eqb gender_filter "All" then Ok filtered_df
  else
    labels ← getitem "sex_label" (sex_label filtered_df);
    Ok (loc_mask filtered_df (eq_str labels gender_filter)).

Definition compute_avg_age (filtered_df : DataFrame) (gender_filter : string)
  : result pyval :=
  data ← select_rows filtered_df gender_filter;
  if negb (empty data)
  then ages ← getitem "age" (age data);
       Ok (PyFloat (F64.np_round (mean ages) 1))
  else Ok (PyInt 0).

(** ** Loading: the [sex] column and its label (lines 22-23) *)

(** A cell as [get_all_records] hands it over: whole numbers arrive as
    [int] (taken within the [int64] range, so that a column of them is an
    [int64] column), other numbers as [float], anything else as text (an
    empty cell is the empty string). *)
Inductive raw_cell :=
  | RInt (z : Z)
  | RFloat (f : spec_float)
  | RStr (s : string).

Inductive num :=
  | NInt (z : Z)
  | NFloat (f : spec_float).

(** A numeric column is [int64] or [float64] as a whole. *)
Inductive num_column :=
  | IntCol (l : list Z)
  | FloatCol (l : list spec_float).

(** The sheet as loaded on line 19, before [sex] is normalised. *)
Record RawFrame := {
  raw_index : list nat;
  raw_age : option (list Z);
  raw_sex : option (list raw_cell);
  raw_chol : option (list Z);
  raw_target : option (list Z);
}.

(** The dict literal [{0: "Female", 1: "Male"}]. *)
Definition sex_names : gmap Z string := {[ 0 := "Female"; 1 := "Male" ]}.

(** [Series.map(d)]: a key absent from the dict maps to NaN. *)
Definition map_dict (d : gmap Z string) (col : list Z) : list (option string) :=
  (fun z => d !! z) <$> col.

Section Load.

(** How pandas reads a text cell as a number; [None] when the text is
    not a number.  The parser belongs to pandas and is left open. *)
Variable parse : string -> option num.

Definition to_num (c : raw_cell) : option num :=
  match c with
  | RInt z => Some (NInt z)
  | RFloat f => Some (NFloat f)
  | RStr s => parse s
  end.

Definition as_int (n : option num) : option Z :=
  match n with
  | Some (NInt z) => Some z
  | _ => None
  end.

Definition as_float (n : option num) : spec_float :=
  match n with
  | Some (NInt z) => F64.of_Z z
  | Some (NFloat f) => f
  | None => S754_nan
  end.

(** [pd.to_numeric(col, errors="coerce")]: the column stays [int64] when
    every cell is a whole number; otherwise it is [float64], with NaN
    where the cell is not a number. *)
Definition to_numeric (col : list raw_cell) : num_column :=
  let ns := to_num <$> col in
  match mapM as_int ns with
  | Some zs => IntCol zs
  | None => FloatCol (as_float <$> ns)
  end.

(** [.fillna(v)] *)
Definition fillna (v : Z) (c : num_column) : num_column :=
  match c with
  | IntCol l => IntCol l
  | FloatCol l =>
      FloatCol ((fun x => if F64.is_nan x then F64.of_Z v else x) <$> l)
  end.

(** A double cast to [int64], from its value truncated toward zero: a
    value that does not fit is stored as the least [int64],
    -9223372036854775808 (so are 1e19 and 2^63). *)
Definition int64_min : Z := - 2 ^ 63.

Definition int64_cast (z : Z) : Z :=
  if (int64_min <=? z) && (z <? 2 ^ 63) then z else int64_min.

(** [.astype(int)]: a column that is already [int64] is kept; doubles are
    truncated toward zero and cast to [int64]; an infinity (NaN is gone
    after [fillna]) raises. *)
Definition astype_int (c : num_column) : result (list Z) :=
  match c with
  | IntCol l => Ok l
  | FloatCol l =>
      match mapM F64.trunc l with
      | Some zs => Ok (int64_cast <$> zs)
      | None => Raise ValueError
      end
  end.

(** Line 22, on the column. *)
Definition normalise_sex (col : list raw_cell) : result (list Z) :=
  astype_int (fillna 0 (to_numeric col)).

(** Lines 22-23: [df_raw] as the rest of the module sees it. *)
Definition preprocess (raw : RawFrame) : result DataFrame :=
  col ← getitem "sex" (raw_sex raw);
  sexes ← normalise_sex col;
  Ok {| index := raw_index raw;
        age := raw_age raw;
        sex := Some sexes;
        sex_label := Some (map_dict sex_names sexes);
        chol := raw_chol raw;
        target := raw_target raw |}.

End Load.

(** ** Configuration (lines 44-55) *)

Record DataNodeConfig := { dn_id : string }.

(** A task: its function over the values of its input nodes, in order,
    returning the values for its output nodes, in order. *)
Record TaskConfig := {
  task_id : string;
  function : list pyval -> result (list pyval);
  input : list DataNodeConfig;
  output : list DataNodeConfig;
}.

Record ScenarioConfig := {
  scenario_config_id : string;
  tasks : list TaskConfig;
}.

Definition filtered_df_cfg : DataNodeConfig := {| dn_id := "filtered_df" |}.
Definition gender_filter_cfg : DataNodeConfig := {| dn_id := "gender_filter" |}.
Definition avg_age_cfg : DataNodeConfig := {| dn_id := "avg_age" |}.

(** [compute_avg_age] as the orchestrator calls it, on node values.
    Python does not check the annotations [(pd.DataFrame, str)], so the body
    runs on whatever the nodes hold:
    - [gender_filter == "All"] is [False] for [None] and for a number, and
      a frame of booleans for a frame, whose truth value is a [ValueError];
    - [filtered_df["sex_label"] == gender_filter] is [False] on every row
      when the filter is not a string, so that the selection is empty and
      the result 0;
    - [filtered_df["sex_label"]] on a value that is not a frame is a
      [TypeError], and [data.empty] on it an [AttributeError];
    - another number of arguments is a [TypeError]. *)
Definition call_compute_avg_age (args : list pyval) : result (list pyval) :=
  match args with
  | [filtered_df; gender_filter] =>
      match gender_filter with
      | PyFrame _ => Raise ValueError
      | PyStr g =>
          match filtered_df with
          | PyFrame df => v ← compute_avg_age df g; Ok [v]
          | _ => if String.eqb g "All" then Raise AttributeError else Raise TypeError
          end
      | _ =>
          match filtered_df with
          | PyFrame df => _ ← getitem "sex_label" (sex_label df); Ok [PyInt 0]
          | _ => Raise TypeError
          end
      end
  | _ => Raise TypeError
  end.

Definition task_cfg : TaskConfig :=
  {| task_id := "compute_avg_age";
     function := call_compute_avg_age;
     input := [filtered_df_cfg; gender_filter_cfg];
     output := [avg_age_cfg] |}.

Definition scenario_cfg : ScenarioConfig :=
  {| scenario_config_id := "cardiac_scenario"; tasks := [task_cfg] |}.

(** ** Data nodes, scenarios and the orchestrator *)

Module Core.

(** Modelled from the spec: the status of a scenario, "created/ready ->
    running -> done | failed".  READY is [CREATED] with the inputs
    written; it is not stored. *)
Inductive Status := CREATED | RUNNING | DONE | FAILED.

(** Modelled from the spec: a scenario instance.  The orchestration
    library is not part of the repository; sections 3 and 4 of the
    design document describe it.  A scenario keeps its configuration,
    its own data nodes (a name is bound once it has been written) and
    its status. *)
Record Scenario := {
  config : ScenarioConfig;
  data_nodes : gmap string pyval;
  status : Status;
}.

(** Modelled from the spec: the store of scenario instances, by id. *)
Record t := {
  scenarios : gmap nat Scenario;
  next_id : nat;
}.

(** Modelled from the spec: the store before any scenario is created. *)
Definition init : t := {| scenarios := ∅; next_id := 0 |}.

(** Modelled from the spec: the node names a configuration declares for
    its scenarios, those its tasks read and write. *)
Definition node_names (cfg : ScenarioConfig) : list string :=
  t ← tasks cfg; dn_id <$> (input t ++ output t).

(** Modelled from the spec: [create_scenario(config) -> scenario_id]
    "allocates a fresh isolated set of data nodes matching the
    configuration's declared nodes ... Initial status: created, all
    owned nodes empty". *)
Definition create_scenario (cfg : ScenarioConfig) (c : t) : nat * t :=
  let sc := {| config := cfg; data_nodes := ∅; status := CREATED |} in
  (next_id c,
   {| scenarios := <[next_id c := sc]> (scenarios c);
      next_id := S (next_id c) |}).

(** Modelled from the spec: the scenario [sid] and its node [name];
    [StateError] for a scenario that does not exist, [KeyError] for a
    name it does not own. *)
Definition find_node (c : t) (sid : nat) (name : string) : result Scenario :=
  match scenarios c !! sid with
  | None => Raise StateError
  | Some sc =>
      if bool_decide (name ∈ node_names (config sc)) then Ok sc
      else Raise (KeyError name)
  end.

(** Modelled from the spec: [read(node) -> value] "returns last-written
    value or a defined empty sentinel if never written" ([None]). *)
Definition read (c : t) (sid : nat) (name : string) : result pyval :=
  sc ← find_node c sid name;
  Ok (default PyNone (data_nodes sc !! name)).

(** Modelled from the spec: [write(node, value)] "stores value under
    node ... triggers no computation by itself". *)
Definition write (sid : nat) (name : string) (v : pyval) (c : t) : result t :=
  sc ← find_node c sid name;
  let sc' := {| config := config sc;
                data_nodes := <[name := v]> (data_nodes sc);
                status := status sc |} in
  Ok {| scenarios := <[sid := sc']> (scenarios c); next_id := next_id c |}.

(** Modelled from the spec: the returned values are written to the
    output nodes "in declared order". *)
Fixpoint write_all (sid : nat) (names : list string) (vs : list pyval) (c : t)
  : result t :=
  match names, vs with
  | n :: names', v :: vs' => c' ← write sid n v c; write_all sid names' vs' c'
  | _, _ => Ok c
  end.

(** Modelled from the spec: [execute(task, node_store)] "reads current
    values of inputs from node_store in declared order, invokes
    computation, and writes the returned value(s) to outputs in declared
    order"; when the computation raises, nothing is written. *)
Definition execute (task : TaskConfig) (sid : nat) (c : t) : result t :=
  args ← mapM (fun dn => read c sid (dn_id dn)) (input task);
  outs ← function task args;
  if bool_decide (length outs = length (output task))
  then write_all sid (dn_id <$> output task) outs c
  else Raise ValueError.

(** Modelled from the spec: a status transition of scenario [sid]. *)
Definition set_status (sid : nat) (s : Status) (c : t) : t :=
  {| scenarios :=
       alter (fun sc => {| config := config sc;
                           data_nodes := data_nodes sc;
                           status := s |}) sid (scenarios c);
     next_id := next_id c |}.

(** Modelled from the spec: an input of a task is available once every
    task producing it has run in this submission or, for a node no task
    produces, once it has been written. *)
Definition available (cfg : ScenarioConfig) (sc : Scenario)
    (ran : list string) (name : string) : bool :=
  match filter (fun t => name ∈ dn_id <$> output t) (tasks cfg) with
  | [] => bool_decide (is_Some (data_nodes sc !! name))
  | producers => forallb (fun t => bool_decide (task_id t ∈ ran)) producers
  end.

(** Modelled from the spec: a task can run once all its inputs are
    available. *)
Definition runnable (c : t) (sid : nat) (ran : list string) (task : TaskConfig)
  : bool :=
  match scenarios c !! sid with
  | Some sc => forallb (fun dn => available (config sc) sc ran (dn_id dn))
                 (input task)
  | None => false
  end.

(** Modelled from the spec: the first runnable task of [pending], and
    the others. *)
Fixpoint pick (c : t) (sid : nat) (ran : list string) (pending : list TaskConfig)
  : option (TaskConfig * list TaskConfig) :=
  match pending with
  | [] => None
  | task :: rest =>
      if runnable c sid ran task then Some (task, rest)
      else '(task', rest') ← pick c sid ran rest; Some (task', task :: rest')
  end.

(** Modelled from the spec: run the tasks in dependency order and stop
    at the first that raises.  Returns the tasks that could not run for
    want of an input. *)
Fixpoint run_tasks (fuel : nat) (sid : nat) (ran : list string)
    (pending : list TaskConfig) (c : t) : t * result (list TaskConfig) :=
  match fuel with
  | O => (c, Ok pending)
  | S fuel' =>
      match pick c sid ran pending with
      | None => (c, Ok pending)
      | Some (task, rest) =>
          match execute task sid c with
          | Ok c' => run_tasks fuel' sid (task_id task :: ran) rest c'
          | Raise e => (c, Raise e)
          end
      end
  end.

(** Modelled from the spec: synchronous [submit(scenario_id)].  Tasks
    run "strictly in dependency order - a task only runs once all its
    declared input nodes have been written"; a submission while running
    is a [StateError]; a computation that raises halts the run, marks
    the scenario failed and is reported to the caller.  Where a task
    never gets its inputs the document leaves the status open: here the
    scenario goes back to the status it had. *)
Definition submit (sid : nat) (c : t) : t * result unit :=
  match scenarios c !! sid with
  | None => (c, Raise StateError)
  | Some sc =>
      match status sc with
      | RUNNING => (c, Raise StateError)
      | before =>
          let todo := tasks (config sc) in
          match run_tasks (length todo) sid [] todo (set_status sid RUNNING c) with
          | (c', Ok []) => (set_status sid DONE c', Ok ())
          | (c', Ok _) => (set_status sid before c', Ok ())
          | (c', Raise e) => (set_status sid FAILED c', Raise e)
          end
      end
  end.

(** Modelled from the spec: [get_node(scenario_id, node_name)], the
    read-only projection of a scenario's node. *)
Definition get_node (c : t) (sid : nat) (name : string) : result pyval :=
  read c sid name.

End Core.

(** ** The GUI state and the callbacks (lines 61-107) *)

(** A figure, by what it was built from. *)
Inductive Figure :=
  | EmptyPie
  | EmptyBox
  | Pie (title : string) (slices : list (string * Z))
  | Box (title : string) (points : list (option string * Z)).

(** The choices of both selectors (line 64). *)
Definition gender_lov : list string := ["All"; "Male"; "Female"].

(** The variables bound to the page (lines 65-69 and 153). *)
Record State := {
  gender_selected : string;
  filtered_df : DataFrame;
  pie_fig : Figure;
  box_fig : Figure;
  avg_age : pyval;
  scenario : nat;
}.

(** What a callback does outside the state, in order. *)
Inductive event :=
  | EvWrite (sid : nat) (node : string)
  | EvRefresh (var : string)
  | EvNotify (kind message : string).

Record World := {
  core : Core.t;
  gui : State;
  events : list event;
}.

(** Callbacks: state passing over the world, with exceptions.  What was
    assigned before an exception stays assigned. *)
Definition M (A : Type) : Type := World -> World * result A.

#[export] Instance M_ret : MRet M := fun _ a w => (w, Ok a).
#[export] Instance M_bind : MBind M := fun _ _ f m w =>
  match m w with
  | (w', Ok a) => f a w'
  | (w', Raise e) => (w', Raise e)
  end.

(** [state.x] *)
Definition get {A} (field : State -> A) : M A := fun w => (w, Ok (field (gui w))).

(** [state.x = v] *)
Definition assign (upd : State -> State) : M unit := fun w =>
  ({| core := core w; gui := upd (gui w); events := events w |}, Ok ()).

(** An expression that may raise. *)
Definition eval {A} (r : result A) : M A := fun w => (w, r).

Definition emit (e : event) : M unit := fun w =>
  ({| core := core w; gui := gui w; events := events w ++ [e] |}, Ok ()).

(** [state.scenario.<node>.write(v)], through [Core.write]. *)
Definition node_write (sid : nat) (name : string) (v : pyval) : M unit := fun w =>
  match Core.write sid name v (core w) with
  | Ok c => ({| core := c; gui := gui w; events := events w ++ [EvWrite sid name] |}, Ok ())
  | Raise e => (w, Raise e)
  end.

(** Modelled from the spec: [state.refresh(var)] of the GUI library
    publishes the variable to the page again; it changes no value. *)
Definition refresh (var : string) : M unit := emit (EvRefresh var).

(** Modelled from the spec: [tp.gui.notify(state, kind, message)] of the
    GUI library, the "user-visible acknowledgment" of section 4.4. *)
Definition notify (kind message : string) : M unit := emit (EvNotify kind message).

Definition set_filtered_df (v : DataFrame) (st : State) : State :=
  {| gender_selected := gender_selected st; filtered_df := v;
     pie_fig := pie_fig st; box_fig := box_fig st; avg_age := avg_age st;
     scenario := scenario st |}.

Definition set_avg_age (v : pyval) (st : State) : State :=
  {| gender_selected := gender_selected st; filtered_df := filtered_df st;
     pie_fig := pie_fig st; box_fig := box_fig st; avg_age := v;
     scenario := scenario st |}.

Definition set_pie_fig (v : Figure) (st : State) : State :=
  {| gender_selected := gender_selected st; filtered_df := filtered_df st;
     pie_fig := v; box_fig := box_fig st; avg_age := avg_age st;
     scenario := scenario st |}.

Definition set_box_fig (v : Figure) (st : State) : State :=
  {| gender_selected := gender_selected st; filtered_df := filtered_df st;
     pie_fig := pie_fig st; box_fig := v; avg_age := avg_age st;
     scenario := scenario st |}.

Definition set_gender_selected (v : string) (st : State) : State :=
  {| gender_selected := v; filtered_df := filtered_df st;
     pie_fig := pie_fig st; box_fig := box_fig st; avg_age := avg_age st;
     scenario := scenario st |}.

(** [df.groupby("sex_label")["target"].count().reset_index(name="count")]:
    one row per label, labels in order, NaN labels left out.  Grouping by a
    column that is not in the frame is [KeyError('sex_label')]; selecting
    one from the groups is [KeyError('Column not found: target')]. *)
Definition groupby_count (df : DataFrame) : result (list (string * Z)) :=
  labels ← getitem "sex_label" (sex_label df);
  values ← match target df with
           | Some col => Ok col
           | None => Raise (KeyError "Column not found: target")
           end;
  let keys := merge_sort (fun a b => Is_true (String.leb a b))
                (remove_dups (omap id labels)) in
  Ok ((fun k => (k, Z.of_nat (length (keep (eq_str labels k) values)))) <$> keys).

(** [px.box(df, x="sex_label", y="chol", ...)]: a column that is not in
    the frame is a [ValueError]. *)
Definition box_points (df : DataFrame) : result (list (option string * Z)) :=
  match sex_label df, chol df with
  | Some xs, Some ys => Ok (zip xs ys)
  | _, _ => Raise ValueError
  end.

(** [update_dash] (lines 75-94); [df_raw] is the module-level frame. *)
Definition update_dash (df_raw : DataFrame) : M unit :=
  g ← get gender_selected;
  subset ← eval (if String.eqb g "All" then Ok df_raw
                 else labels ← getitem "sex_label" (sex_label df_raw);
                      Ok (loc_mask df_raw (eq_str labels g)));
  assign (set_filtered_df subset);;
  avg ← eval (if negb (empty subset)
              then ages ← getitem "age" (age subset);
                   Ok (PyFloat (F64.np_round (mean ages) 1))
              else Ok (PyInt 0));
  assign (set_avg_age avg);;
  g ← get gender_selected;
  counts ← eval (groupby_count subset);
  assign (set_pie_fig (Pie ("Target Count -- " +:+ g) counts));;
  points ← eval (box_points subset);
  assign (set_box_fig (Box "Cholesterol by Gender" points)).

(** [save_scenario] (lines 100-107) *)
Definition save_scenario : M unit :=
  sid ← get scenario;
  df ← get filtered_df;
  node_write sid "filtered_df" (PyFrame df);;
  sid ← get scenario;
  g ← get gender_selected;
  node_write sid "gender_filter" (PyStr g);;
  refresh "scenario";;
  notify "s" "Scenario saved -- submit to compute!".

(** Lines 64-69 and 150-155: the world when the page opens. *)
Definition startup (df_raw : DataFrame) : result World :=
  let '(sid, c) := Core.create_scenario scenario_cfg Core.init in
  c ← Core.write sid "filtered_df" (PyFrame df_raw) c;
  c ← Core.write sid "gender_filter" (PyStr "All") c;
  Ok {| core := c;
        gui := {| gender_selected := "All"; filtered_df := df_raw;
                  pie_fig := EmptyPie; box_fig := EmptyBox;
                  avg_age := PyInt 0; scenario := sid |};
        events := [] |}.

(** The selector stores the choice, then calls its [on_change]. *)
Definition select_gender (g : string) (on_change : M unit) : M unit :=
  assign (set_gender_selected g);; on_change.

(** ** Notions the statements below are phrased with *)

(** Every column present has one entry per row. *)
Definition column_fits {A} (n : nat) (col : option (list A)) : Prop :=
  match col with
  | Some l => length l = n
  | None => True
  end.

Definition well_formed (df : DataFrame) : Prop :=
  let n := length (index df) in
  column_fits n (age df) /\ column_fits n (sex df)
  /\ column_fits n (sex_label df) /\ column_fits n (chol df)
  /\ column_fits n (target df).

(** Positions, counted from [i], of the rows labelled [g]. *)
Fixpoint positions_from (i : nat) (labels : list (option string)) (g : string)
  : list nat :=
  match labels with
  | [] => []
  | l :: labels' =>
      if decide (l = Some g) then i :: positions_from (S i) labels' g
      else positions_from (S i) labels' g
  end.

Definition rows_labelled (labels : list (option string)) (g : string) : list nat :=
  positions_from 0 labels g.

(** The entries of a column at the given positions. *)
Definition take_rows {A} (positions : list nat) (col : list A) : list A :=
  omap (fun i => col !! i) positions.

(** The frame restricted to the rows whose [sex_label] is [g], row by
    row; it needs the label column. *)
Definition restrict (df : DataFrame) (g : string) : result DataFrame :=
  labels ← getitem "sex_label" (sex_label df);
  let rows := rows_labelled labels g in
  Ok {| index := take_rows rows (index df);
        age := take_rows rows <$> age df;
        sex := take_rows rows <$> sex df;
        sex_label := take_rows rows <$> sex_label df;
        chol := take_rows rows <$> chol df;
        target := take_rows rows <$> target df |}.

(** The subset a filter stands for: the whole frame for ["All"],
    otherwise the rows with that label. *)
Definition subset_of (df : DataFrame) (g : string) : result DataFrame :=
  if decide (g = "All") then Ok df else restrict df g.

(** The scenario after [write] has stored [v] in its node [name]. *)
Definition written (name : string) (v : pyval) (sc : Core.Scenario)
  : Core.Scenario :=
  {| Core.config := Core.config sc;
     Core.data_nodes := <[name := v]> (Core.data_nodes sc);
     Core.status := Core.status sc |}.


(** The label the dict gives a sex code. *)
Definition label_of (z : Z) : option string :=
  if decide (z = 0) then Some "Female"
  else if decide (z = 1) then Some "Male" else None.

(** A cell that is not a number, or is the missing number: what
    [to_numeric] with [errors="coerce"] leaves as NaN. *)
Definition not_a_number (parse : string -> option num) (c : raw_cell) : Prop :=
  as_float (to_num parse c) = S754_nan.

(** The ten rows of the end-to-end example: ages and sexes as given, the
    women at rows 3, 4, 6 and 9. *)
Definition cardiac10 : DataFrame :=
  {| index := seq 0 10;
     age := Some [50; 55; 60; 45; 70; 65; 40; 48; 52; 58];
     sex := Some [1; 1; 1; 0; 0; 1; 0; 1; 1; 0];
     sex_label := Some (map_dict sex_names [1; 1; 1; 0; 0; 1; 0; 1; 1; 0]);
     chol := None;
     target := None |}.

Definition two_men : DataFrame :=
  {| index := [0; 1]%nat; age := Some [61; 47]; sex := Some [1; 1];
     sex_label := Some [Some "Male"; Some "Male"];
     chol := Some [230; 199]; target := Some [1; 0] |}.

(** A frame without rows and without the [sex_label] column. *)
Definition no_rows_no_label : DataFrame :=
  {| index := []; age := Some []; sex := None; sex_label := None;
     chol := None; target := None |}.

(** Two frames agree on what [compute_avg_age] reads: the number of rows,
    the columns [age] and [sex_label], and whether there is any column at
    all.  The row labels and the columns [sex], [chol] and [target] are
    free. *)
Definition same_ages_and_labels (df1 df2 : DataFrame) : Prop :=
  length (index df1) = length (index df2)
  /\ age df1 = age df2
  /\ sex_label df1 = sex_label df2
  /\ (ncols df1 = 0%nat <-> ncols df2 = 0%nat).

(** The ages and labels of [two_men] under other row labels, without the
    [sex] and [chol] columns and with other [target] values. *)
Definition two_men_elsewhere : DataFrame :=
  {| index := [7; 9]%nat; age := Some [61; 47]; sex := None;
     sex_label := Some [Some "Male"; Some "Male"];
     chol := None; target := Some [0; 0] |}.

(** The label ["All"] collides with the filter that means "no filter". *)
Definition labelled_all : DataFrame :=
  {| index := [0; 1]%nat; age := Some [10; 20]; sex := None;
     sex_label := Some [Some "All"; Some "Male"];
     chol := None; target := None |}.

Definition labelled_all_only : DataFrame :=
  {| index := [0]%nat; age := Some [10]; sex := None;
     sex_label := Some [Some "All"];
     chol := None; target := None |}.

(** The world [startup] yields for a module-level frame. *)
Definition opened (df_raw : DataFrame) : World :=
  {| core :=
       {| Core.scenarios :=
            {[ 0%nat :=
                 {| Core.config := scenario_cfg;
                    Core.data_nodes :=
                      <["gender_filter" := PyStr "All"]>
                        {[ "filtered_df" := PyFrame df_raw ]};
                    Core.status := Core.CREATED |} ]};
          Core.next_id := 1 |};
     gui := {| gender_selected := "All"; filtered_df := df_raw;
               pie_fig := EmptyPie; box_fig := EmptyBox;
               avg_age := PyInt 0; scenario := 0 |};
     events := [] |}.

(** The same world once the user has picked a gender in the selector
    bound to [save_scenario]: only [gender_selected] has changed. *)
Definition picked (df_raw : DataFrame) (g : string) : World :=
  {| core := core (opened df_raw);
     gui := set_gender_selected g (gui (opened df_raw));
     events := [] |}.

(** What one [save_scenario] on scenario [sid] does outside the state:
    two writes, then the refresh, then the notification. *)
Definition commit_events (sid : nat) : list event :=
  [EvWrite sid "filtered_df"; EvWrite sid "gender_filter";
   EvRefresh "scenario"; EvNotify "s" "Scenario saved -- submit to compute!"].

(** A store with one scenario of [scenario_cfg] whose inputs are written. *)
Definition two_men_scenario : Core.Scenario :=
  {| Core.config := scenario_cfg;
     Core.data_nodes :=
       <["gender_filter" := PyStr "Male"]> {[ "filtered_df" := PyFrame two_men ]};
     Core.status := Core.CREATED |}.

Definition two_men_core : Core.t :=
  {| Core.scenarios := {[ 0%nat := two_men_scenario ]}; Core.next_id := 1 |}.

(** A sheet with a code of each kind in its [sex] column: whole numbers,
    an empty cell, text, a fraction, an unknown code. *)
Definition mixed_sheet : RawFrame :=
  {| raw_index := seq 0 6;
     raw_age := Some [63; 41; 57; 38; 70; 52];
     raw_sex := Some [RInt 1; RStr ""; RInt 0; RStr "n/a";
                      RFloat (F64.decimal 15 1); RInt 7];
     raw_chol := Some [233; 204; 354; 192; 286; 199];
     raw_target := Some [1; 0; 1; 0; 1; 1] |}.

(** A parser that reads no text as a number. *)
Definition no_parse (s : string) : option num := None.

(** [mixed_sheet] after lines 22-23, read with [no_parse]. *)
Definition mixed_loaded : DataFrame :=
  {| index := seq 0 6;
     age := Some [63; 41; 57; 38; 70; 52];
     sex := Some [1; 0; 0; 0; 1; 7];
     sex_label := Some [Some "Male"; Some "Female"; Some "Female";
                        Some "Female"; Some "Male"; None];
     chol := Some [233; 204; 354; 192; 286; 199];
     target := Some [1; 0; 1; 0; 1; 1] |}.

(** ** Notions for the properties of the rest of the module *)

(** Every column of the sheet has one cell per row. *)
Definition raw_well_formed (raw : RawFrame) : Prop :=
  let n := length (raw_index raw) in
  column_fits n (raw_age raw) /\ column_fits n (raw_sex raw)
  /\ column_fits n (raw_chol raw) /\ column_fits n (raw_target raw).

(** A cell that reads as an infinity. *)
Definition reads_infinite (parse : string -> option num) (c : raw_cell) : Prop :=
  exists s, to_num parse c = Some (NFloat (S754_infinity s)).

(** A whole number a double holds exactly. *)
Definition reads_small (parse : string -> option num) (c : raw_cell) : Prop :=
  forall z, to_num parse c = Some (NInt z) -> Z.abs z < 2 ^ 53.

(** The rows without a label. *)
Definition unlabelled (labels : list (option string)) : list (option string) :=
  filter (fun l => l = None) labels.

(** A sheet whose [sex] column holds an infinity. *)
Definition infinite_sheet : RawFrame :=
  {| raw_index := seq 0 2;
     raw_age := Some [44; 59];
     raw_sex := Some [RInt 1; RFloat (S754_infinity false)];
     raw_chol := Some [210; 180];
     raw_target := Some [0; 1] |}.

(** The sign bit of a double ([math.copysign(1, x) < 0]); NaN has none
    that matters. *)
Definition signbit (x : spec_float) : bool :=
  match x with
  | S754_zero s | S754_infinity s | S754_finite s _ _ => s
  | S754_nan => false
  end.



(** The world after [state.x = v]. *)
Definition with_gui (upd : State -> State) (w : World) : World :=
  {| core := core w; gui := upd (gui w); events := events w |}.

(** [update_dash] step by step: the world after each assignment, up to
    the first expression that raises. *)
Definition update_dash_steps (df_raw : DataFrame) (w : World) : World * result unit :=
  let g := gender_selected (gui w) in
  match select_rows df_raw g with
  | Raise e => (w, Raise e)
  | Ok subset =>
      let w1 := with_gui (set_filtered_df subset) w in
      match compute_avg_age subset "All" with
      | Raise e => (w1, Raise e)
      | Ok avg =>
          let w2 := with_gui (set_avg_age avg) w1 in
          match groupby_count subset with
          | Raise e => (w2, Raise e)
          | Ok counts =>
              let w3 :=
                with_gui (set_pie_fig (Pie ("Target Count -- " +:+ g) counts)) w2 in
              match box_points subset with
              | Raise e => (w3, Raise e)
              | Ok points =>
                  (with_gui (set_box_fig (Box "Cholesterol by Gender" points)) w3,
                   Ok ())
              end
          end
      end
  end.

(** How many rows carry the label [k]. *)
Definition count_label (k : string) (labels : list (option string)) : nat :=
  length (filter (fun l => l = Some k) labels).

(** The order of the group keys. *)
Definition str_le (a b : string) : Prop := Is_true (String.leb a b).

(** The rows of [mixed_loaded] by gender. *)
Definition mixed_women : DataFrame :=
  {| index := [1; 2; 3]%nat; age := Some [41; 57; 38]; sex := Some [0; 0; 0];
     sex_label := Some [Some "Female"; Some "Female"; Some "Female"];
     chol := Some [204; 354; 192]; target := Some [0; 1; 0] |}.

Definition mixed_men : DataFrame :=
  {| index := [0; 4]%nat; age := Some [63; 70]; sex := Some [1; 1];
     sex_label := Some [Some "Male"; Some "Male"];
     chol := Some [233; 286]; target := Some [1; 1] |}.


(** A world whose selected scenario is not in the store. *)
Definition dangling : World :=
  {| core := Core.init;
     gui := {| gender_selected := "Male"; filtered_df := two_men;
               pie_fig := EmptyPie; box_fig := EmptyBox;
               avg_age := PyInt 0; scenario := 7 |};
     events := [] |}.

(** * Properties *)

(** ** Binary64 facts *)

Module F64Facts.

(** The digit count of [SpecFloat] is the bit size of [Pos]. *)
Lemma digits2_size p : digits2_pos p = Pos.size p.
Proof. induction p; simpl; congruence. Qed.

(** Shifting left by [k] adds [k] digits and multiplies by [2^k]. *)
Lemma digits2_iter_xO p k : digits2_pos (Pos.iter xO p k) = (digits2_pos p + k)%positive.
Proof.
  revert p. induction k using Pos.peano_ind; intros p.
  - simpl. lia.
  - rewrite Pos.iter_succ. simpl. rewrite IHk. lia.
Qed.

Lemma Zpos_iter_xO p k : Z.pos (Pos.iter xO p k) = Z.pos p * 2 ^ Z.pos k.
Proof.
  revert p. induction k using Pos.peano_ind; intros p.
  - simpl. lia.
  - rewrite Pos.iter_succ, Pos2Z.inj_succ, Z.pow_succ_r by lia.
    rewrite Pos2Z.inj_xO, IHk. lia.
Qed.

(** Below [2^53] a number has at most 53 bits. *)
Lemma size_le_53 p : Z.pos p < 2 ^ 53 -> Z.pos (Pos.size p) <= 53.
Proof.
  intros Hp. pose proof (Pos.size_le p) as Hle.
  destruct (Z.le_gt_cases (Z.pos (Pos.size p)) 53) as [|Hgt]; [done|].
  exfalso.
  assert (2 ^ 54 <= Z.pos (2 ^ Pos.size p)) as H54.
  { rewrite Pos2Z.inj_pow. apply Z.pow_le_mono_r; lia. }
  assert (Z.pos (2 ^ Pos.size p) <= Z.pos p~0) by (by apply Pos2Z.pos_le_pos).
  lia.
Qed.


(** A 53-bit mantissa with an exponent in range is left as it is. *)
Lemma binary_round_aux_canonical s m e :
  Z.pos (digits2_pos m) = 53 -> -1074 <= e <= 971 ->
  binary_round_aux F64.prec F64.emax s (Z.pos m) e loc_Exact = S754_finite s m e.
Proof.
  intros Hd He.
  unfold binary_round_aux, shr_fexp, fexp, emin, F64.prec, F64.emax.
  cbn [Zdigits2 shr_record_of_loc]. rewrite Hd.
  replace (Z.max (53 + e - 53) (3 - 1024 - 53) - e) with 0 by lia.
  cbn [shr shr_m loc_of_shr_record round_nearest_even Zdigits2 shr_record_of_loc].
  rewrite Hd.
  replace (Z.max (53 + e - 53) (3 - 1024 - 53) - e) with 0 by lia.
  cbn [shr shr_m].
  destruct (Z.leb_spec e (1024 - 53)); [done | lia].
Qed.

(** An integer below [2^53] is a double: it converts to a finite value
    with the same magnitude. *)
Lemma binary_round_exact s p :
  Z.pos p < 2 ^ 53 ->
  exists m e, binary_round F64.prec F64.emax s p 0 = S754_finite s m e
    /\ -52 <= e <= 0 /\ Z.pos m = Z.pos p * 2 ^ (- e).
Proof.
  intros Hp. pose proof (size_le_53 p Hp) as Hd.
  unfold binary_round, shl_align, fexp, emin, F64.prec, F64.emax.
  rewrite digits2_size.
  replace (Z.max (Z.pos (Pos.size p) + 0 - 53) (3 - 1024 - 53))
    with (Z.pos (Pos.size p) - 53) by lia.
  replace (Z.pos (Pos.size p) - 53 - 0) with (Z.pos (Pos.size p) - 53) by lia.
  destruct (Z.pos (Pos.size p) - 53) as [|d|d] eqn:Hsz; [| lia |].
  - exists p, 0. split; [|split; [lia | simpl; lia]].
    apply binary_round_aux_canonical; [rewrite digits2_size|]; lia.
  - exists (Pos.iter xO p d), (Z.neg d). split; [|split; [lia|]].
    + apply binary_round_aux_canonical; [|lia].
      rewrite digits2_iter_xO, digits2_size. lia.
    + by rewrite Zpos_iter_xO.
Qed.

(** Converting such an integer to a double and back gives it again. *)
Lemma trunc_of_Z z : Z.abs z < 2 ^ 53 -> F64.trunc (F64.of_Z z) = Some z.
Proof.
  intros Hz. unfold F64.of_Z, binary_normalize.
  destruct z as [|p|p]; [done| |].
  - destruct (binary_round_exact false p) as (m & e & -> & He & Hm); [lia|].
    simpl. f_equal. destruct (Z.leb_spec 0 e).
    + replace e with 0 in * by lia. simpl in Hm. lia.
    + rewrite Hm, Z.div_mul; [done|]. apply Z.pow_nonzero; lia.
  - destruct (binary_round_exact true p) as (m & e & -> & He & Hm); [lia|].
    simpl. f_equal. destruct (Z.leb_spec 0 e).
    + replace e with 0 in * by lia. simpl in Hm. lia.
    + rewrite Hm, Z.div_mul; [lia|]. apply Z.pow_nonzero; lia.
Qed.

(** Rounding never turns a non-negative mantissa negative, so the NaN
    branch of [binary_round_aux] is not taken. *)
Lemma shr_1_nonneg mrs : 0 <= shr_m mrs -> 0 <= shr_m (shr_1 mrs).
Proof. destruct mrs as [[|[p|p|]|[p|p|]] r s]; simpl; lia. Qed.

Lemma iter_pos_shr_1_nonneg p mrs :
  0 <= shr_m mrs -> 0 <= shr_m (SpecFloat.iter_pos shr_1 p mrs).
Proof.
  revert mrs. induction p as [p IH|p IH|]; intros mrs Hm; simpl.
  - apply IH, IH. by apply shr_1_nonneg.
  - by apply IH, IH.
  - by apply shr_1_nonneg.
Qed.

Lemma shr_fexp_nonneg m e l :
  0 <= m -> 0 <= shr_m (fst (shr_fexp F64.prec F64.emax m e l)).
Proof.
  intros Hm. unfold shr_fexp, shr.
  assert (0 <= shr_m (shr_record_of_loc m l)) as Hrec by (by destruct l as [|[]]).
  destruct (_ - e); simpl; [done | | done].
  by apply iter_pos_shr_1_nonneg.
Qed.

Lemma round_nearest_even_nonneg m l : 0 <= m -> 0 <= round_nearest_even m l.
Proof. intros Hm. destruct l as [|[]]; simpl; try lia. destruct (Z.even m); lia. Qed.

Lemma binary_round_aux_not_nan s m e l :
  0 <= m -> F64.is_nan (binary_round_aux F64.prec F64.emax s m e l) = false.
Proof.
  intros Hm. unfold binary_round_aux.
  pose proof (shr_fexp_nonneg m e l Hm) as H1.
  destruct (shr_fexp F64.prec F64.emax m e l) as [mrs' e'] eqn:E1. simpl in H1.
  pose proof (shr_fexp_nonneg _ e' loc_Exact
                (round_nearest_even_nonneg _ (loc_of_shr_record mrs') H1)) as H2.
  destruct (shr_fexp F64.prec F64.emax _ e' loc_Exact) as [mrs'' e''] eqn:E2.
  simpl in H2.
  destruct (shr_m mrs'') as [|p|p]; [done | | lia].
  by destruct (Z.leb e'' _).
Qed.

(** The operations behind [mean] and [round] do not make a NaN out of
    numbers, as long as the divisor is finite and not zero. *)
Lemma of_Z_not_nan z : F64.is_nan (F64.of_Z z) = false.
Proof.
  unfold F64.of_Z, binary_normalize, binary_round.
  destruct z as [|p|p]; [done | |].
  all: destruct (shl_align _ _ _) as [mz ez]; by apply binary_round_aux_not_nan.
Qed.







End F64Facts.

(** ** Boolean masks and row positions *)

Section Keep.
Context {A : Type}.
Implicit Types (mask : list bool) (l : list A).

Lemma keep_nil_r mask : keep mask (@nil A) = [].
Proof. by destruct mask. Qed.

Lemma keep_all_false mask l : Forall (fun b => b = false) mask -> keep mask l = [].
Proof.
  intros Hall. revert l.
  induction Hall as [|b mask -> _ IH]; intros [|x l]; simpl; auto.
Qed.


(** An entry survives exactly when its mask bit is set. *)
Lemma elem_of_keep mask l x :
  x ∈ keep mask l <-> exists j, mask !! j = Some true /\ l !! j = Some x.
Proof.
  revert l. induction mask as [|b mask IH]; intros [|y l]; simpl.
  - split; [by intros ?%elem_of_nil | by intros (j & ? & ?)].
  - split; [by intros ?%elem_of_nil | by intros (j & ? & ?)].
  - split; [by intros ?%elem_of_nil | by intros (j & ? & ?)].
  - destruct b.
    + rewrite elem_of_cons, IH. split.
      * intros [-> | (j & ? & ?)]; [by exists 0%nat | by exists (S j)].
      * intros ([|j] & Hm & Hl); simpl in *; [left; congruence | right; eauto].
    + rewrite IH. split.
      * intros (j & ? & ?). by exists (S j).
      * intros ([|j] & Hm & Hl); simpl in *; [congruence | eauto].
Qed.

Lemma take_rows_nil positions : take_rows positions (@nil A) = [].
Proof. induction positions as [|i positions IH]; simpl; auto. Qed.

Lemma take_rows_cons_shift positions x l :
  Forall (fun i => (0 < i)%nat) positions ->
  take_rows positions (x :: l) = take_rows (Nat.pred <$> positions) l.
Proof.
  induction 1 as [|i positions Hi _ IH]; [done|].
  destruct i as [|i]; [lia|].
  unfold take_rows in *. rewrite fmap_cons. cbn [omap list_omap Nat.pred].
  by rewrite IH.
Qed.
End Keep.

Lemma positions_from_ge i labels g :
  Forall (fun j => (i <= j)%nat) (positions_from i labels g).
Proof.
  revert i. induction labels as [|l labels IH]; intros i; simpl; [constructor|].
  assert (Forall (fun j => (i <= j)%nat) (positions_from (S i) labels g)) as Htl.
  { eapply Forall_impl; [apply IH | simpl; lia]. }
  case_decide; [constructor; [lia | done] | done].
Qed.

Lemma positions_from_S i labels g :
  Nat.pred <$> positions_from (S i) labels g = positions_from i labels g.
Proof.
  revert i. induction labels as [|l labels IH]; intros i; simpl; [done|].
  case_decide; simpl; by rewrite IH.
Qed.

Lemma eq_str_cons l labels g :
  eq_str (l :: labels) g = bool_decide (l = Some g) :: eq_str labels g.
Proof.
  unfold eq_str. simpl. f_equal.
  destruct l as [s|]; [|by rewrite bool_decide_eq_false_2].
  destruct (String.eqb_spec s g) as [->|Hne].
  - by rewrite bool_decide_eq_true_2.
  - rewrite bool_decide_eq_false_2; [done | congruence].
Qed.

(** Selecting by the mask [labels == g] is taking the rows labelled [g]. *)
Lemma keep_eq_str_take_rows {A} labels g (col : list A) :
  keep (eq_str labels g) col = take_rows (rows_labelled labels g) col.
Proof.
  unfold rows_labelled. revert col.
  induction labels as [|l labels IH]; intros col.
  - by destruct col.
  - rewrite eq_str_cons. destruct col as [|x col].
    + by rewrite keep_nil_r, take_rows_nil.
    + pose proof (positions_from_ge 1 labels g) as Hge.
      assert (Forall (fun i => (0 < i)%nat) (positions_from 1 labels g)) as Hpos.
      { eapply Forall_impl; [exact Hge | simpl; lia]. }
      cbn [positions_from]. case_decide as Hl.
      * rewrite bool_decide_eq_true_2 by done.
        change (take_rows (0%nat :: ?ps) (x :: col))
          with (x :: take_rows ps (x :: col)).
        rewrite take_rows_cons_shift, positions_from_S by done.
        cbn [keep]. by rewrite IH.
      * rewrite bool_decide_eq_false_2 by done.
        rewrite take_rows_cons_shift, positions_from_S by done.
        cbn [keep]. by rewrite IH.
Qed.

(** The mask selection of [compute_avg_age] is the row-by-row restriction. *)
Lemma loc_mask_restrict df labels g :
  sex_label df = Some labels ->
  restrict df g = Ok (loc_mask df (eq_str labels g)).
Proof.
  intros Hl. unfold restrict, loc_mask. rewrite Hl. simpl. f_equal.
  f_equal; try (rewrite <- Hl); try by rewrite keep_eq_str_take_rows.
  all: match goal with |- _ <$> ?c = _ <$> ?c => destruct c; simpl; [|done] end.
  all: by rewrite keep_eq_str_take_rows.
Qed.

Lemma select_rows_All df : select_rows df "All" = Ok df.
Proof. done. Qed.

Lemma select_rows_other df g :
  g <> "All" ->
  select_rows df g =
    (labels ← getitem "sex_label" (sex_label df); Ok (loc_mask df (eq_str labels g))).
Proof.
  intros Hg. unfold select_rows.
  destruct (String.eqb_spec g "All"); [done | done].
Qed.

(** [select_rows] computes the subset the filter stands for. *)
Lemma select_rows_subset_of df g : select_rows df g = subset_of df g.
Proof.
  unfold subset_of. case_decide as Hg.
  - subst. apply select_rows_All.
  - rewrite select_rows_other by done.
    destruct (sex_label df) as [labels|] eqn:Hl; simpl.
    + symmetry. by apply loc_mask_restrict.
    + unfold restrict. by rewrite Hl.
Qed.

(** ** [compute_avg_age] *)

Lemma empty_spec df :
  empty df = true <-> index df = [] \/ ncols df = 0%nat.
Proof.
  unfold empty. rewrite orb_true_iff, !bool_decide_eq_true.
  by rewrite length_zero_iff_nil.
Qed.

Lemma empty_no_rows df : index df = [] -> empty df = true.
Proof. intros H. apply empty_spec. by left. Qed.

(** The function selects the subset, then averages it unfiltered. *)
Lemma compute_avg_age_via_subset df g :
  compute_avg_age df g = (data ← subset_of df g; compute_avg_age data "All").
Proof. unfold compute_avg_age. by rewrite select_rows_subset_of. Qed.

Lemma compute_avg_age_All df :
  compute_avg_age df "All" =
    if negb (empty df)
    then ages ← getitem "age" (age df); Ok (PyFloat (F64.np_round (mean ages) 1))
    else Ok (PyInt 0).
Proof. done. Qed.

(** C2, as stated, fails on a frame without the [sex_label] column: the
    frame [no_rows_no_label] has no row at all, so no row is selected by
    the filter ["Male"], yet [compute_avg_age] raises [KeyError] instead of
    returning 0. *)
Lemma empty_unlabelled_frame_raises :
  index no_rows_no_label = []
  /\ sex_label no_rows_no_label = None
  /\ compute_avg_age no_rows_no_label "Male" = Raise (KeyError "sex_label")
  /\ compute_avg_age no_rows_no_label "Male" <> Ok (PyInt 0).
Proof. repeat split; try reflexivity. vm_compute. discriminate. Qed.

(** C2, amended.  For a filter that is ["All"], or on a frame that has the
    [sex_label] column, the subset the filter stands for (the whole frame
    for ["All"], the rows labelled with the filter otherwise) is defined,
    and whenever it is empty - it has no row, or no column -
    [compute_avg_age] returns the integer [0]: no exception, no NaN. *)
Theorem compute_avg_age_empty_subset df g :
  g = "All" \/ is_Some (sex_label df) ->
  exists sub, subset_of df g = Ok sub
    /\ (index sub = [] \/ ncols sub = 0%nat ->
          compute_avg_age df g = Ok (PyInt 0)).
Proof.
  intros Hpre.
  assert (exists sub, subset_of df g = Ok sub) as [sub Hsub].
  { unfold subset_of, restrict. case_decide; [by eauto|].
    destruct Hpre as [? | [labels Hl]]; [done|]. rewrite Hl. simpl. by eauto. }
  exists sub. split; [done|].
  intros Hempty%empty_spec. rewrite compute_avg_age_via_subset, Hsub. simpl.
  by rewrite compute_avg_age_All, Hempty.
Qed.

Lemma compute_avg_age_empty_subset_witness :
  ("Female" = "All" \/ is_Some (sex_label two_men))
  /\ exists sub, subset_of two_men "Female" = Ok sub
       /\ index sub = []
       /\ compute_avg_age two_men "Female" = Ok (PyInt 0).
Proof.
  assert ("Female" = "All" \/ is_Some (sex_label two_men)) as Hpre
    by (right; by eexists).
  split; [exact Hpre|].
  destruct (compute_avg_age_empty_subset two_men "Female" Hpre)
    as (sub & Hsub & Hzero).
  exists sub. split; [exact Hsub|].
  assert (index sub = []) as Hrows.
  { vm_compute in Hsub. by injection Hsub as <-. }
  split; [exact Hrows | exact (Hzero (or_introl Hrows))].
Defined.

(** C4, as stated, fails where the category value is ["All"] itself: on
    the whole frame the filter ["All"] averages both rows (15.0), on the
    frame restricted to the rows labelled ["All"] it averages one (10.0). *)
Lemma category_All_counterexample :
  sex_label labelled_all = Some [Some "All"; Some "Male"]
  /\ restrict labelled_all "All" = Ok labelled_all_only
  /\ compute_avg_age labelled_all "All" = Ok (PyFloat (F64.of_Z 15))
  /\ compute_avg_age labelled_all_only "All" = Ok (PyFloat (F64.of_Z 10))
  /\ compute_avg_age labelled_all "All" <> compute_avg_age labelled_all_only "All".
Proof. repeat split; try reflexivity. vm_compute. discriminate. Qed.

(** C4, amended.  For every frame and every filter other than ["All"],
    filtering inside [compute_avg_age] agrees with restricting the frame
    to the rows with that label first and averaging the result unfiltered. *)
Theorem compute_avg_age_filter_commutes df g df' :
  g <> "All" ->
  restrict df g = Ok df' ->
  compute_avg_age df g = compute_avg_age df' "All".
Proof.
  intros Hg Hres. rewrite compute_avg_age_via_subset.
  unfold subset_of. rewrite decide_False by done.
  by rewrite Hres.
Qed.

Lemma compute_avg_age_filter_commutes_witness :
  "Male" <> "All"
  /\ restrict labelled_all "Male"
     = Ok {| index := [1]%nat; age := Some [20]; sex := None;
             sex_label := Some [Some "Male"]; chol := None; target := None |}
  /\ compute_avg_age labelled_all "Male"
     = compute_avg_age
         {| index := [1]%nat; age := Some [20]; sex := None;
            sex_label := Some [Some "Male"]; chol := None; target := None |}
         "All".
Proof.
  split; [discriminate|]. split; [reflexivity|].
  apply compute_avg_age_filter_commutes; [discriminate | reflexivity].
Defined.

Lemma length_keep_eq {A B} mask (l1 : list A) (l2 : list B) :
  length l1 = length l2 -> length (keep mask l1) = length (keep mask l2).
Proof.
  revert l1 l2. induction mask as [|b mask IH]; intros [|x l1] [|y l2] Hlen;
    simpl in *; try done.
  destruct b; simpl; auto.
Qed.

Lemma column_fits_keep {A} mask (idx : list nat) (col : option (list A)) :
  column_fits (length idx) col ->
  column_fits (length (keep mask idx)) (keep mask <$> col).
Proof.
  destruct col as [l|]; simpl; [|done].
  intros Hlen. by apply length_keep_eq.
Qed.

(** Mask selection keeps a frame well formed. *)
Lemma well_formed_loc_mask df mask : well_formed df -> well_formed (loc_mask df mask).
Proof.
  unfold well_formed. simpl. intros (? & ? & ? & ? & ?).
  repeat split; by apply column_fits_keep.
Qed.


(** The mean over zero rows, which the guard keeps out of reach. *)
Lemma mean_nil : mean [] = S754_nan.
Proof. reflexivity. Qed.

(** What [compute_avg_age] reads of a frame. *)
Lemma keep_nil_length {A B} mask (l1 : list A) (l2 : list B) :
  length l1 = length l2 -> keep mask l1 = [] -> keep mask l2 = [].
Proof.
  intros Hlen H1. apply length_zero_iff_nil.
  rewrite <- (length_keep_eq mask l1 l2 Hlen). by rewrite H1.
Qed.

Lemma ncols_loc_mask df mask : ncols (loc_mask df mask) = ncols df.
Proof.
  unfold ncols. simpl.
  by destruct (age df), (sex df), (sex_label df), (chol df), (target df).
Qed.

Lemma empty_loc_mask df1 df2 mask :
  length (index df1) = length (index df2) ->
  (ncols df1 = 0%nat <-> ncols df2 = 0%nat) ->
  empty (loc_mask df1 mask) = empty (loc_mask df2 mask).
Proof.
  intros Hlen Hcols.
  destruct (empty (loc_mask df1 mask)) eqn:H1;
    destruct (empty (loc_mask df2 mask)) eqn:H2; try done.
  - apply empty_spec in H1. rewrite ncols_loc_mask in H1. simpl in H1.
    assert (empty (loc_mask df2 mask) = true); [|congruence].
    apply empty_spec. rewrite ncols_loc_mask. simpl.
    destruct H1 as [H1|H1]; [left | right; by apply Hcols].
    by apply (keep_nil_length mask (index df1)).
  - apply empty_spec in H2. rewrite ncols_loc_mask in H2. simpl in H2.
    assert (empty (loc_mask df1 mask) = true); [|congruence].
    apply empty_spec. rewrite ncols_loc_mask. simpl.
    destruct H2 as [H2|H2]; [left | right; by apply Hcols].
    by apply (keep_nil_length mask (index df2)).
Qed.

(** C7.  Two calls of [compute_avg_age] return the same result, value or
    exception, as soon as the two filters are equal and the two frames
    agree on what the body reads of a frame: the number of rows, the
    columns [age] and [sex_label], and whether there is any column.  Equal
    frames do; so do frames that differ in row labels and in the other
    columns.  The result is determined by the two arguments, and by no
    more of them than that. *)
Theorem compute_avg_age_determined_by_inputs df1 g1 df2 g2 :
  same_ages_and_labels df1 df2 -> g1 = g2 ->
  compute_avg_age df1 g1 = compute_avg_age df2 g2.
Proof.
  intros (Hlen & Hage & Hlab & Hcols) <-.
  unfold compute_avg_age, select_rows.
  destruct (String.eqb g1 "All"); simpl.
  - assert (empty df1 = empty df2) as ->.
    { unfold empty. rewrite Hlen.
      destruct (bool_decide (length (index df2) = 0%nat)); [done|]. simpl.
      apply bool_decide_ext, Hcols. }
    by rewrite Hage.
  - rewrite <- Hlab. destruct (sex_label df1) as [labels|]; simpl; [|done].
    rewrite (empty_loc_mask df1 df2 _ Hlen Hcols).
    by rewrite Hage.
Qed.

Lemma compute_avg_age_determined_by_inputs_witness :
  same_ages_and_labels two_men two_men_elsewhere
  /\ index two_men <> index two_men_elsewhere
  /\ compute_avg_age two_men "Male"
     = compute_avg_age two_men_elsewhere ("Ma" +:+ "le").
Proof.
  assert (same_ages_and_labels two_men two_men_elsewhere) as Hsame.
  { repeat split; try reflexivity; simpl; discriminate. }
  split; [exact Hsame|]. split; [discriminate|].
  exact (compute_avg_age_determined_by_inputs two_men "Male" two_men_elsewhere
           ("Ma" +:+ "le") Hsame eq_refl).
Defined.



(** ** The preview path *)

Section Preview.
Local Opaque F64.np_round mean groupby_count box_points empty loc_mask eq_str.

(** What [update_dash] leaves in [state.avg_age], and whether it got
    there, against [compute_avg_age] on the same frame and selection. *)
Lemma update_dash_avg_age df_raw w :
  match compute_avg_age df_raw (gender_selected (gui w)) with
  | Ok v => avg_age (gui (fst (update_dash df_raw w))) = v
  | Raise e => snd (update_dash df_raw w) = Raise e
               /\ avg_age (gui (fst (update_dash df_raw w))) = avg_age (gui w)
  end.
Proof.
  unfold update_dash, compute_avg_age, select_rows.
  unfold mbind, M_bind, get, assign, eval. simpl.
  destruct (String.eqb (gender_selected (gui w)) "All"); simpl.
  - destruct (empty df_raw); simpl.
    + destruct (groupby_count df_raw); simpl; [|done].
      by destruct (box_points df_raw).
    + destruct (age df_raw); simpl; [|done].
      destruct (groupby_count df_raw); simpl; [|done].
      by destruct (box_points df_raw).
  - destruct (sex_label df_raw) as [labels|]; simpl; [|done].
    set (sub := loc_mask df_raw _).
    destruct (empty sub); simpl.
    + destruct (groupby_count sub); simpl; [|done].
      by destruct (box_points sub).
    + destruct (age sub); simpl; [|done].
      destruct (groupby_count sub); simpl; [|done].
      by destruct (box_points sub).
Qed.
End Preview.

(** C5.  For every selection and every module-level frame, the value
    [update_dash] assigns to [state.avg_age] is the value of
    [compute_avg_age] on that frame and selection, which is what the task
    writes to the node [avg_age]; and where [compute_avg_age] raises,
    [update_dash] raises the same exception and assigns nothing to
    [state.avg_age]. *)
Theorem preview_agrees_with_task df_raw w :
  match compute_avg_age df_raw (gender_selected (gui w)) with
  | Ok v => avg_age (gui (fst (update_dash df_raw w))) = v
  | Raise e => snd (update_dash df_raw w) = Raise e
               /\ avg_age (gui (fst (update_dash df_raw w))) = avg_age (gui w)
  end.
Proof. apply update_dash_avg_age. Qed.

(** ** Data nodes *)

Module CoreFacts.
Import Core.

Lemma node_names_scenario_cfg :
  node_names scenario_cfg = ["filtered_df"; "gender_filter"; "avg_age"].
Proof. reflexivity. Qed.

Lemma find_node_Ok c sid name sc :
  find_node c sid name = Ok sc <->
  scenarios c !! sid = Some sc /\ name ∈ node_names (config sc).
Proof.
  unfold find_node. destruct (scenarios c !! sid) as [sc'|].
  - case_bool_decide as Hin.
    + split; [by intros [= ->] | by intros [[= ->] _]].
    + split; [done | by intros [[= ->] ?]].
  - split; [done | by intros [? _]].
Qed.

Lemma read_Ok c sid name sc :
  scenarios c !! sid = Some sc -> name ∈ node_names (config sc) ->
  read c sid name = Ok (default PyNone (data_nodes sc !! name)).
Proof.
  intros Hsc Hname. unfold read.
  by rewrite (proj2 (find_node_Ok c sid name sc)).
Qed.

Lemma write_Ok c sid name v sc :
  scenarios c !! sid = Some sc -> name ∈ node_names (config sc) ->
  write sid name v c =
    Ok {| scenarios := <[sid := written name v sc]> (scenarios c);
          next_id := next_id c |}.
Proof.
  intros Hsc Hname. unfold write.
  by rewrite (proj2 (find_node_Ok c sid name sc)).
Qed.

Lemma write_inv c sid name v c' :
  write sid name v c = Ok c' ->
  exists sc, scenarios c !! sid = Some sc /\ name ∈ node_names (config sc)
    /\ c' = {| scenarios := <[sid := written name v sc]> (scenarios c);
               next_id := next_id c |}.
Proof.
  unfold write. destruct (find_node c sid name) as [sc|] eqn:Hfind; [|done].
  simpl. intros [= <-]. apply find_node_Ok in Hfind as [? ?]. by exists sc.
Qed.

(** A write is read back. *)
Lemma read_write_same c sid name v c' :
  write sid name v c = Ok c' -> read c' sid name = Ok v.
Proof.
  intros (sc & Hsc & Hname & ->)%write_inv.
  erewrite read_Ok; [| simpl; apply lookup_insert_eq | done].
  simpl. by rewrite lookup_insert_eq.
Qed.

(** A write leaves the other nodes of the scenario as they were. *)
Lemma read_write_other_node c sid name v c' name' :
  write sid name v c = Ok c' -> name <> name' ->
  read c' sid name' = read c sid name'.
Proof.
  intros (sc & Hsc & Hname & ->)%write_inv Hne.
  unfold read, find_node. simpl. rewrite lookup_insert_eq, Hsc. simpl.
  case_bool_decide; [|done]. simpl. by rewrite lookup_insert_ne.
Qed.

(** A write leaves every node of every other scenario as it was. *)
Lemma read_write_other_scenario c s1 name v c' s2 name' :
  write s1 name v c = Ok c' -> s1 <> s2 ->
  read c' s2 name' = read c s2 name'.
Proof.
  intros (sc & Hsc & Hname & ->)%write_inv Hne.
  unfold read, find_node. simpl. by rewrite lookup_insert_ne.
Qed.

(** A write changes no status. *)
Lemma status_write c sid name v c' sid' :
  write sid name v c = Ok c' ->
  status <$> scenarios c' !! sid' = status <$> scenarios c !! sid'.
Proof.
  intros (sc & Hsc & Hname & ->)%write_inv. simpl.
  destruct (decide (sid = sid')) as [<-|Hne].
  - by rewrite lookup_insert_eq, Hsc.
  - by rewrite lookup_insert_ne.
Qed.

(** Two scenarios created one after the other are distinct, and both
    are in the store with the configuration they were created from. *)
Lemma create_scenario_twice cfg c :
  let '(s1, c1) := create_scenario cfg c in
  let '(s2, c2) := create_scenario cfg c1 in
  s1 <> s2
  /\ config <$> scenarios c2 !! s1 = Some cfg
  /\ config <$> scenarios c2 !! s2 = Some cfg.
Proof.
  simpl. split; [lia|]. split.
  - rewrite lookup_insert_ne by lia. by rewrite lookup_insert_eq.
  - by rewrite lookup_insert_eq.
Qed.

Section Execute.
Local Opaque compute_avg_age.

(** Running the configured task on a scenario of [scenario_cfg] whose
    input nodes hold a frame and a string. *)
Lemma execute_task_cfg c sid sc df g :
  scenarios c !! sid = Some sc ->
  config sc = scenario_cfg ->
  read c sid "filtered_df" = Ok (PyFrame df) ->
  read c sid "gender_filter" = Ok (PyStr g) ->
  execute task_cfg sid c = (v ← compute_avg_age df g; write sid "avg_age" v c).
Proof.
  intros Hsc Hcfg Hdf Hg. unfold execute. simpl.
  unfold mapM. simpl. rewrite Hdf. simpl. rewrite Hg. simpl.
  destruct (compute_avg_age df g) as [v|e]; simpl; [|done].
  by destruct (write sid "avg_age" v c).
Qed.

Lemma write_avg_age_Ok c sid sc v :
  scenarios c !! sid = Some sc ->
  config sc = scenario_cfg ->
  write sid "avg_age" v c =
    Ok {| scenarios := <[sid := written "avg_age" v sc]> (scenarios c);
          next_id := next_id c |}.
Proof.
  intros Hsc Hcfg. apply write_Ok; [done|].
  rewrite Hcfg, node_names_scenario_cfg. set_solver.
Qed.

(** The task, run: the output node receives the value computed from
    the two input nodes, which stay as they were; where the
    computation raises, so does the run. *)
Lemma execute_task_cfg_effect c sid sc df g :
  scenarios c !! sid = Some sc ->
  config sc = scenario_cfg ->
  read c sid "filtered_df" = Ok (PyFrame df) ->
  read c sid "gender_filter" = Ok (PyStr g) ->
  match compute_avg_age df g with
  | Ok v =>
      exists c', execute task_cfg sid c = Ok c'
        /\ read c' sid "avg_age" = Ok v
        /\ read c' sid "filtered_df" = Ok (PyFrame df)
        /\ read c' sid "gender_filter" = Ok (PyStr g)
  | Raise e => execute task_cfg sid c = Raise e
  end.
Proof.
  intros Hsc Hcfg Hdf Hg.
  rewrite (execute_task_cfg c sid sc df g) by done.
  destruct (compute_avg_age df g) as [v|e]; simpl; [|done].
  pose proof (write_avg_age_Ok c sid sc v Hsc Hcfg) as Hw.
  eexists. split; [exact Hw|]. split; [by eapply read_write_same|].
  split.
  - rewrite <- Hdf. by eapply read_write_other_node.
  - rewrite <- Hg. by eapply read_write_other_node.
Qed.

Lemma runnable_task_cfg c sid sc :
  scenarios c !! sid = Some sc ->
  config sc = scenario_cfg ->
  is_Some (data_nodes sc !! "filtered_df") ->
  is_Some (data_nodes sc !! "gender_filter") ->
  runnable c sid [] task_cfg = true.
Proof.
  intros Hsc Hcfg Hdf Hg. unfold runnable. rewrite Hsc, Hcfg.
  simpl. unfold available. simpl.
  by rewrite !bool_decide_eq_true_2.
Qed.

Lemma set_status_lookup c sid s sc :
  scenarios c !! sid = Some sc ->
  scenarios (set_status sid s c) !! sid
  = Some {| config := config sc; data_nodes := data_nodes sc; status := s |}.
Proof. intros Hsc. simpl. by rewrite lookup_alter_eq, Hsc. Qed.

(** Submitting a scenario of [scenario_cfg] whose two input nodes are
    written and whose computation succeeds: the run completes, the
    scenario is done and [avg_age] holds the computed value. *)
Lemma submit_scenario_cfg c sid sc df g v :
  scenarios c !! sid = Some sc ->
  config sc = scenario_cfg ->
  status sc <> RUNNING ->
  data_nodes sc !! "filtered_df" = Some (PyFrame df) ->
  data_nodes sc !! "gender_filter" = Some (PyStr g) ->
  compute_avg_age df g = Ok v ->
  exists c', submit sid c = (c', Ok ())
    /\ get_node c' sid "avg_age" = Ok v
    /\ status <$> scenarios c' !! sid = Some DONE.
Proof.
  intros Hsc Hcfg Hrun Hdf Hg Hv.
  pose proof (set_status_lookup c sid RUNNING sc Hsc) as Hsc1.
  set (sc1 := {| config := config sc; data_nodes := data_nodes sc;
                 status := RUNNING |}) in Hsc1.
  assert (execute task_cfg sid (set_status sid RUNNING c)
          = Ok {| scenarios := <[sid := written "avg_age" v sc1]>
                                 (scenarios (set_status sid RUNNING c));
                  next_id := next_id c |}) as Hexec.
  { rewrite (execute_task_cfg _ sid sc1 df g); try done.
    - rewrite Hv. simpl. by rewrite (write_avg_age_Ok _ sid sc1).
    - erewrite read_Ok; [|exact Hsc1|].
      + simpl. by rewrite Hdf.
      + simpl. rewrite Hcfg, node_names_scenario_cfg. set_solver.
    - erewrite read_Ok; [|exact Hsc1|].
      + simpl. by rewrite Hg.
      + simpl. rewrite Hcfg, node_names_scenario_cfg. set_solver. }
  assert (runnable (set_status sid RUNNING c) sid [] task_cfg = true) as Hready.
  { apply (runnable_task_cfg _ sid sc1); try done; simpl; by eauto. }
  eexists. split.
  - unfold submit. rewrite Hsc, Hcfg.
    destruct (status sc) eqn:Hst; [|done| |].
    all: cbn [tasks scenario_cfg length run_tasks pick].
    all: rewrite Hready, Hexec; reflexivity.
  - split.
    + unfold get_node, read, find_node. simpl.
      rewrite lookup_alter_eq, lookup_insert_eq. simpl.
      rewrite Hcfg, node_names_scenario_cfg.
      rewrite bool_decide_eq_true_2 by set_solver. simpl.
      by rewrite lookup_insert_eq.
    + simpl. by rewrite lookup_alter_eq, lookup_insert_eq.
Qed.
End Execute.

End CoreFacts.

(** ** The commit path *)

Lemma startup_opened df_raw : startup df_raw = Ok (opened df_raw).
Proof. reflexivity. Qed.

Section Commit.
Import Core CoreFacts.
Local Opaque compute_avg_age.

(** [save_scenario], run on a world whose selected scenario was created
    from [scenario_cfg]. *)
Lemma save_scenario_run w sc :
  scenarios (core w) !! scenario (gui w) = Some sc ->
  config sc = scenario_cfg ->
  save_scenario w =
    ({| core :=
          {| scenarios :=
               <[scenario (gui w) :=
                   written "gender_filter" (PyStr (gender_selected (gui w)))
                     (written "filtered_df" (PyFrame (filtered_df (gui w))) sc)]>
                 (scenarios (core w));
             next_id := next_id (core w) |};
        gui := gui w;
        events := events w ++ commit_events (scenario (gui w)) |}, Ok ()).
Proof.
  intros Hsc Hcfg. unfold save_scenario.
  unfold mbind, M_bind, get, node_write, refresh, notify, emit. simpl.
  rewrite (write_Ok _ _ "filtered_df" _ sc); [|done|]; cycle 1.
  { rewrite Hcfg, node_names_scenario_cfg. set_solver. }
  simpl.
  rewrite (write_Ok _ _ "gender_filter" _
             (written "filtered_df" (PyFrame (filtered_df (gui w))) sc));
    cycle 1.
  { simpl. apply lookup_insert_eq. }
  { simpl. rewrite Hcfg, node_names_scenario_cfg. set_solver. }
  simpl. rewrite insert_insert_eq.
  by rewrite <- !app_assoc.
Qed.
End Commit.

(** ** The task, the scenario and the commit *)

(** C1.  Executing the task [compute_avg_age] on a scenario of
    [scenario_cfg] reads the node [filtered_df], then [gender_filter],
    applies [compute_avg_age] to the two values in that order and writes
    the one result to the node [avg_age]: afterwards [avg_age] holds
    [compute_avg_age v_filtered_df v_gender_filter], and the inputs are
    untouched.  Where the computation raises, the execution raises the
    same exception. *)
Theorem execute_writes_avg_age c sid sc df g :
  Core.scenarios c !! sid = Some sc ->
  Core.config sc = scenario_cfg ->
  Core.read c sid "filtered_df" = Ok (PyFrame df) ->
  Core.read c sid "gender_filter" = Ok (PyStr g) ->
  match compute_avg_age df g with
  | Ok v =>
      exists c', Core.execute task_cfg sid c = Ok c'
        /\ Core.read c' sid "avg_age" = Ok v
        /\ Core.read c' sid "filtered_df" = Ok (PyFrame df)
        /\ Core.read c' sid "gender_filter" = Ok (PyStr g)
  | Raise e => Core.execute task_cfg sid c = Raise e
  end.
Proof. apply CoreFacts.execute_task_cfg_effect. Qed.

Lemma execute_writes_avg_age_witness :
  exists c', Core.execute task_cfg 0 two_men_core = Ok c'
    /\ Core.read c' 0 "avg_age" = Ok (PyFloat (F64.of_Z 54))
    /\ Core.read c' 0 "filtered_df" = Ok (PyFrame two_men)
    /\ Core.read c' 0 "gender_filter" = Ok (PyStr "Male").
Proof.
  exact (execute_writes_avg_age two_men_core 0 two_men_scenario two_men "Male"
           eq_refl eq_refl eq_refl eq_refl).
Defined.

(** C8.  Writing a value to a node of one scenario leaves every node of
    every other scenario reading as before; in particular for two
    scenarios created from [scenario_cfg] and the node of the same name. *)
Theorem scenarios_isolated c s1 s2 name v c' name' :
  s1 <> s2 ->
  Core.write s1 name v c = Ok c' ->
  Core.read c' s2 name' = Core.read c s2 name'.
Proof. intros Hne Hw. by eapply CoreFacts.read_write_other_scenario. Qed.

Lemma scenarios_isolated_witness :
  let '(s1, c1) := Core.create_scenario scenario_cfg Core.init in
  let '(s2, c2) := Core.create_scenario scenario_cfg c1 in
  exists c3, s1 <> s2
    /\ Core.write s1 "gender_filter" (PyStr "Male") c2 = Ok c3
    /\ Core.read c3 s1 "gender_filter" = Ok (PyStr "Male")
    /\ Core.read c3 s2 "gender_filter" = Core.read c2 s2 "gender_filter".
Proof.
  simpl. eexists. split; [lia|]. split; [reflexivity|]. split; [reflexivity|].
  eapply (scenarios_isolated _ 0%nat 1%nat "gender_filter" (PyStr "Male"));
    [lia | reflexivity].
Defined.

(** C6.  [save_scenario] stores [state.filtered_df] and
    [state.gender_selected] in the two input nodes of the selected
    scenario, whatever they held; it then refreshes and notifies the user,
    in that order after the writes; it submits nothing: the node [avg_age]
    and the status of the scenario are as before, and so is the GUI state. *)
Theorem save_scenario_commits w sc :
  Core.scenarios (core w) !! scenario (gui w) = Some sc ->
  Core.config sc = scenario_cfg ->
  exists w', save_scenario w = (w', Ok ())
    /\ Core.read (core w') (scenario (gui w)) "filtered_df"
       = Ok (PyFrame (filtered_df (gui w)))
    /\ Core.read (core w') (scenario (gui w)) "gender_filter"
       = Ok (PyStr (gender_selected (gui w)))
    /\ Core.read (core w') (scenario (gui w)) "avg_age"
       = Core.read (core w) (scenario (gui w)) "avg_age"
    /\ Core.status <$> Core.scenarios (core w') !! scenario (gui w)
       = Core.status <$> Core.scenarios (core w) !! scenario (gui w)
    /\ gui w' = gui w
    /\ events w' = events w ++ commit_events (scenario (gui w)).
Proof.
  intros Hsc Hcfg. eexists. split; [by apply save_scenario_run|].
  assert (forall name, name ∈ Core.node_names scenario_cfg ->
            name ∈ Core.node_names (Core.config sc)) as Hin by (by rewrite Hcfg).
  rewrite CoreFacts.node_names_scenario_cfg in Hin.
  unfold Core.read, Core.find_node. simpl.
  rewrite !lookup_insert_eq, Hsc. simpl.
  rewrite !bool_decide_eq_true_2 by (apply Hin; set_solver). simpl.
  rewrite lookup_insert_eq.
  rewrite lookup_insert_ne, lookup_insert_eq by done.
  by rewrite !lookup_insert_ne by done.
Qed.

Lemma save_scenario_commits_witness :
  exists w', save_scenario (picked two_men "Male") = (w', Ok ())
    /\ Core.read (core w') 0 "filtered_df" = Ok (PyFrame two_men)
    /\ Core.read (core w') 0 "gender_filter" = Ok (PyStr "Male")
    /\ Core.read (core w') 0 "avg_age" = Ok PyNone
    /\ Core.status <$> Core.scenarios (core w') !! 0%nat = Some Core.CREATED
    /\ gui w' = gui (picked two_men "Male")
    /\ events w' = commit_events 0.
Proof.
  exact (save_scenario_commits (picked two_men "Male") _ eq_refl eq_refl).
Defined.

(** ** The ten-row example *)

(** The women of [cardiac10] are 45, 70, 40 and 58; their mean is exactly
    53.25, a double: [m * 2^-47] with [4 * m = 213 * 2^47]. *)
Lemma mean_cardiac10_women :
  mean [45; 70; 40; 58] = S754_finite false 7494271254921216 (-47)
  /\ 4 * 7494271254921216 = 213 * 2 ^ 47.
Proof. split; reflexivity. Qed.

(** The doubles written [53.2] and [53.3]: each is within half a unit in
    the last place ([2^-48]) of its decimal. *)
Lemma decimal_53_2 :
  F64.decimal 532 1 = S754_finite false 7487234380503450 (-47)
  /\ Z.abs (10 * 7487234380503450 - 532 * 2 ^ 47) <= 5.
Proof. split; [reflexivity | by compute]. Qed.

Lemma decimal_53_3 :
  F64.decimal 533 1 = S754_finite false 7501308129338982 (-47)
  /\ Z.abs (10 * 7501308129338982 - 533 * 2 ^ 47) <= 5.
Proof. split; [reflexivity | by compute]. Qed.

(** 53.25 is a tie between 53.2 and 53.3; scaled by ten it is 532.5, which
    [rint] rounds to the even 532.  The builtin [round] of a Python
    [float] resolves the tie the same way. *)
Lemma round_53_25 :
  F64.mul (mean [45; 70; 40; 58]) (F64.of_Z 10) = F64.decimal 5325 1
  /\ F64.rint (F64.decimal 5325 1) = F64.of_Z 532
  /\ F64.np_round (mean [45; 70; 40; 58]) 1 = F64.decimal 532 1
  /\ F64.builtin_round (mean [45; 70; 40; 58]) 1 = F64.decimal 532 1.
Proof. repeat split; reflexivity. Qed.

(** C3, as stated, fails: on the ten rows with the filter ["Female"] the
    function returns the double 53.2, which is below the double 53.3. *)
Lemma cardiac10_female_is_not_53_3 :
  compute_avg_age cardiac10 "Female" = Ok (PyFloat (F64.decimal 532 1))
  /\ SFltb (F64.decimal 532 1) (F64.decimal 533 1) = true
  /\ compute_avg_age cardiac10 "Female" <> Ok (PyFloat (F64.decimal 533 1)).
Proof. split; [reflexivity|]. split; [reflexivity | vm_compute; discriminate]. Qed.

(** C3, amended.  On the ten rows with the filter ["Female"],
    [compute_avg_age] returns 53.2, the mean 53.25 of the four women
    rounded half-to-even to one decimal; and committing the frame and the
    filter to a scenario of [scenario_cfg] with [save_scenario], then
    submitting it, leaves 53.2 in the node [avg_age]. *)
Theorem cardiac10_female_avg w sc :
  Core.scenarios (core w) !! scenario (gui w) = Some sc ->
  Core.config sc = scenario_cfg ->
  Core.status sc <> Core.RUNNING ->
  filtered_df (gui w) = cardiac10 ->
  gender_selected (gui w) = "Female" ->
  compute_avg_age cardiac10 "Female" = Ok (PyFloat (F64.decimal 532 1))
  /\ exists w' c',
       save_scenario w = (w', Ok ())
       /\ Core.submit (scenario (gui w)) (core w') = (c', Ok ())
       /\ Core.get_node c' (scenario (gui w)) "avg_age"
          = Ok (PyFloat (F64.decimal 532 1)).
Proof.
  intros Hsc Hcfg Hrun Hdf Hg. split; [reflexivity|].
  eexists. 
  edestruct (CoreFacts.submit_scenario_cfg) as (c' & Hsub & Hget & _);
    cycle 6.
  - eexists. split; [by apply save_scenario_run|]. split; [exact Hsub | exact Hget].
  - simpl. apply lookup_insert_eq.
  - done.
  - done.
  - simpl. rewrite lookup_insert_ne by done. apply lookup_insert_eq.
  - simpl. apply lookup_insert_eq.
  - rewrite Hdf, Hg. reflexivity.
Qed.

Lemma cardiac10_female_avg_witness :
  compute_avg_age cardiac10 "Female" = Ok (PyFloat (F64.decimal 532 1))
  /\ exists w' c',
       save_scenario (picked cardiac10 "Female") = (w', Ok ())
       /\ Core.submit 0 (core w') = (c', Ok ())
       /\ Core.get_node c' 0 "avg_age" = Ok (PyFloat (F64.decimal 532 1)).
Proof.
  refine (cardiac10_female_avg (picked cardiac10 "Female") _
            eq_refl eq_refl _ eq_refl eq_refl).
  discriminate.
Defined.

(** ** No NaN reaches the node *)


(** ** Loading *)

Lemma sex_names_lookup z : sex_names !! z = label_of z.
Proof.
  unfold label_of, sex_names. repeat case_decide; subst; try done.
  rewrite lookup_insert_ne by done. by rewrite lookup_singleton_ne.
Qed.

Section LoadFacts.
Variable parse : string -> option num.

Lemma int64_cast_fits z : - 2 ^ 63 <= z < 2 ^ 63 -> int64_cast z = z.
Proof.
  intros Hz. unfold int64_cast, int64_min.
  destruct (Z.leb_spec (- 2 ^ 63) z); [|lia].
  destruct (Z.ltb_spec z (2 ^ 63)); [done | lia].
Qed.

Lemma int64_cast_range z : - 2 ^ 63 <= int64_cast z < 2 ^ 63.
Proof.
  unfold int64_cast, int64_min.
  destruct (Z.leb_spec (- 2 ^ 63) z); simpl; [|lia].
  destruct (Z.ltb_spec z (2 ^ 63)); lia.
Qed.

(** Row by row, [normalise_sex] either keeps the whole number of an
    all-integer column, or truncates the double, NaN read as zero, and
    casts it to [int64]. *)
Lemma normalise_sex_lookup col sexes i c :
  normalise_sex parse col = Ok sexes ->
  col !! i = Some c ->
  exists z, sexes !! i = Some z
    /\ (as_int (to_num parse c) = Some z
        \/ as_int (to_num parse c) = None
           /\ (exists t,
                 F64.trunc (if F64.is_nan (as_float (to_num parse c))
                            then F64.of_Z 0 else as_float (to_num parse c))
                 = Some t /\ z = int64_cast t)
        \/ (exists n, to_num parse c = Some (NInt n))
           /\ (exists t, F64.trunc (as_float (to_num parse c)) = Some t
                         /\ z = int64_cast t)).
Proof.
  unfold normalise_sex, to_numeric. intros Hnorm Hc.
  destruct (mapM as_int (to_num parse <$> col)) as [zs|] eqn:Hint; simpl in Hnorm.
  - injection Hnorm as <-.
    apply mapM_Some in Hint.
    destruct (Forall2_lookup_l _ _ _ i (to_num parse c) Hint) as (z & Hz & Has).
    { by rewrite list_lookup_fmap, Hc. }
    exists z. split; [done | by left].
  - destruct (mapM F64.trunc _) as [zs|] eqn:Htr; [|done].
    injection Hnorm as <-.
    apply mapM_Some in Htr.
    destruct (Forall2_lookup_l _ _ _ i
                (if F64.is_nan (as_float (to_num parse c)) then F64.of_Z 0
                 else as_float (to_num parse c)) Htr) as (t & Ht & Has).
    { by rewrite !list_lookup_fmap, Hc. }
    exists (int64_cast t). split; [by rewrite list_lookup_fmap, Ht|].
    simpl in Has.
    destruct (to_num parse c) as [[n|f]|] eqn:Hnum; simpl in *.
    + right. right. split; [by eauto|].
      rewrite F64Facts.of_Z_not_nan in Has. by exists t.
    + right. left. split; [done | by exists t].
    + right. left. split; [done | by exists t].
Qed.

Lemma preprocess_Ok raw df :
  preprocess parse raw = Ok df ->
  exists cells sexes,
    raw_sex raw = Some cells
    /\ normalise_sex parse cells = Ok sexes
    /\ index df = raw_index raw
    /\ sex df = Some sexes
    /\ sex_label df = Some (map_dict sex_names sexes).
Proof.
  unfold preprocess. destruct (raw_sex raw) as [cells|]; simpl; [|done].
  destruct (normalise_sex parse cells) as [sexes|] eqn:Hnorm; simpl; [|done].
  intros [= <-]. by exists cells, sexes.
Qed.
End LoadFacts.

(** A row whose mask bit is clear is not in the selection. *)
Lemma not_elem_of_keep (mask : list bool) (idx : list nat) i k :
  NoDup idx -> idx !! i = Some k -> mask !! i = Some false -> k ∉ keep mask idx.
Proof.
  intros Hnd Hk Hm (j & Hj & Hkj)%elem_of_keep.
  assert (i = j) as -> by (by eapply NoDup_lookup).
  congruence.
Qed.

(** C10, as stated, fails on a fractional code: in [mixed_sheet] the cell
    of row 4 is the number 1.5, neither 0 nor 1, yet after lines 22-23
    the row has [sex = 1] and the label ["Male"], and the ["Male"] filter
    of [compute_avg_age] selects it. *)
Lemma fractional_code_is_labelled :
  raw_sex mixed_sheet ≫= (fun cells => cells !! 4%nat)
  = Some (RFloat (F64.decimal 15 1))
  /\ SFltb (F64.of_Z 1) (F64.decimal 15 1) = true
  /\ preprocess no_parse mixed_sheet = Ok mixed_loaded
  /\ sex mixed_loaded ≫= (fun sexes => sexes !! 4%nat) = Some 1
  /\ sex_label mixed_loaded ≫= (fun labels => labels !! 4%nat) = Some (Some "Male")
  /\ index <$> select_rows mixed_loaded "Male" = Ok [0; 4]%nat.
Proof. repeat split; reflexivity. Qed.

(** C10, amended.  After lines 22-23, row by row: a cell that is not a
    number, or is missing, gets [sex = 0]; a whole number of magnitude
    below 2^53 is kept; a floating-point number is truncated toward zero
    and cast to [int64], a truncated value outside the [int64] range being
    stored as -9223372036854775808; [sex = 0] is labelled ["Female"],
    [sex = 1] ["Male"], and any other [sex] gets no label.  A row without a
    label is in neither the ["Male"] nor the ["Female"] selection of
    [compute_avg_age], and is in the selection for ["All"]. *)
Theorem sex_normalisation parse raw df cells i c k :
  preprocess parse raw = Ok df ->
  raw_sex raw = Some cells ->
  cells !! i = Some c ->
  index df !! i = Some k ->
  NoDup (index df) ->
  exists sexes labels z men women everyone,
    sex df = Some sexes /\ sex_label df = Some labels
    /\ sexes !! i = Some z
    /\ (not_a_number parse c -> z = 0)
    /\ (forall n, to_num parse c = Some (NInt n) -> Z.abs n < 2 ^ 53 -> z = n)
    /\ (forall f, to_num parse c = Some (NFloat f) -> F64.is_nan f = false ->
          exists t, F64.trunc f = Some t
            /\ (- 2 ^ 63 <= t < 2 ^ 63 -> z = t)
            /\ (~ - 2 ^ 63 <= t < 2 ^ 63 -> z = - 2 ^ 63))
    /\ (z = 0 -> labels !! i = Some (Some "Female"))
    /\ (z = 1 -> labels !! i = Some (Some "Male"))
    /\ (z <> 0 -> z <> 1 -> labels !! i = Some None)
    /\ select_rows df "Male" = Ok men
    /\ select_rows df "Female" = Ok women
    /\ select_rows df "All" = Ok everyone
    /\ (z <> 0 -> z <> 1 ->
          (k ∉ index men) /\ (k ∉ index women) /\ (k ∈ index everyone)).
Proof.
  intros Hpre Hraw Hc Hk Hnd.
  destruct (preprocess_Ok parse raw df Hpre)
    as (cells' & sexes & Hraw' & Hnorm & Hidx & Hsex & Hlab).
  assert (cells' = cells) as -> by congruence.
  destruct (normalise_sex_lookup parse cells sexes i c Hnorm Hc)
    as (z & Hz & Hcases).
  assert (map_dict sex_names sexes !! i = Some (label_of z)) as Hli.
  { unfold map_dict. by rewrite list_lookup_fmap, Hz, <- sex_names_lookup. }
  exists sexes, (map_dict sex_names sexes), z.
  do 3 eexists.
  split; [done|]. split; [done|]. split; [done|].
  split.
  { unfold not_a_number. intros Hnan.
    destruct Hcases as [Hint | [[_ (t & Htr & ->)] | [[n Hn] (t & Htr & ->)]]].
    - destruct (to_num parse c) as [[n|f]|]; simpl in *; try done.
      pose proof (F64Facts.of_Z_not_nan n) as Hn. by rewrite Hnan in Hn.
    - rewrite Hnan in Htr. simpl in Htr. by injection Htr as <-.
    - rewrite Hnan in Htr. done. }
  split.
  { intros n Hn Hbound.
    destruct Hcases as [Hint | [[Hint _] | [_ (t & Htr & ->)]]];
      rewrite Hn in *; simpl in *.
    - congruence.
    - done.
    - rewrite F64Facts.trunc_of_Z in Htr by done. injection Htr as <-.
      apply int64_cast_fits. lia. }
  split.
  { intros f Hf Hnan.
    destruct Hcases as [Hint | [[_ (t & Htr & ->)] | [[n Hn] _]]];
      rewrite Hf in *; simpl in *.
    - done.
    - rewrite Hnan in Htr. exists t. split; [done|].
      split; [apply int64_cast_fits|].
      intros Hout. unfold int64_cast, int64_min.
      destruct (Z.leb_spec (- 2 ^ 63) t); simpl; [|done].
      destruct (Z.ltb_spec t (2 ^ 63)); [lia | done].
    - done. }
  split. { intros ->. by rewrite Hli. }
  split. { intros ->. by rewrite Hli. }
  assert (z <> 0 -> z <> 1 -> label_of z = None) as Hnone.
  { intros ??. unfold label_of. by rewrite !decide_False. }
  split. { intros ??. by rewrite Hli, Hnone. }
  unfold select_rows. rewrite Hlab. simpl.
  split; [done|]. split; [done|]. split; [done|].
  intros Hz0 Hz1. simpl.
  assert (forall g, eq_str (map_dict sex_names sexes) g !! i = Some false) as Hmask.
  { intros g. unfold eq_str. by rewrite list_lookup_fmap, Hli, Hnone. }
  split; [by eapply not_elem_of_keep|].
  split; [by eapply not_elem_of_keep|].
  by eapply list_elem_of_lookup_2.
Qed.

Lemma preprocess_mixed_sheet : preprocess no_parse mixed_sheet = Ok mixed_loaded.
Proof. reflexivity. Qed.

(** The cast on doubles that do not fit: 1e19 and 2^63 are both stored as
    the least [int64], and so is -1e19; 2^63 - 1024, the largest double
    below 2^63, is kept. *)
Lemma astype_int_out_of_range :
  astype_int (FloatCol [F64.of_Z (10 ^ 19); F64.of_Z (2 ^ 63);
                        F64.of_Z (- 10 ^ 19); F64.of_Z (2 ^ 63 - 1024)])
  = Ok [-9223372036854775808; -9223372036854775808;
        -9223372036854775808; 9223372036854774784].
Proof. reflexivity. Qed.

Lemma sex_normalisation_witness :
  exists sexes labels z men women everyone,
    sex mixed_loaded = Some sexes /\ sex_label mixed_loaded = Some labels
    /\ sexes !! 5%nat = Some z
    /\ (not_a_number no_parse (RInt 7) -> z = 0)
    /\ (forall n, to_num no_parse (RInt 7) = Some (NInt n) -> Z.abs n < 2 ^ 53 -> z = n)
    /\ (forall f, to_num no_parse (RInt 7) = Some (NFloat f) ->
          F64.is_nan f = false ->
          exists t, F64.trunc f = Some t
            /\ (- 2 ^ 63 <= t < 2 ^ 63 -> z = t)
            /\ (~ - 2 ^ 63 <= t < 2 ^ 63 -> z = - 2 ^ 63))
    /\ (z = 0 -> labels !! 5%nat = Some (Some "Female"))
    /\ (z = 1 -> labels !! 5%nat = Some (Some "Male"))
    /\ (z <> 0 -> z <> 1 -> labels !! 5%nat = Some None)
    /\ select_rows mixed_loaded "Male" = Ok men
    /\ select_rows mixed_loaded "Female" = Ok women
    /\ select_rows mixed_loaded "All" = Ok everyone
    /\ (z <> 0 -> z <> 1 ->
          (5%nat ∉ index men) /\ (5%nat ∉ index women) /\ (5%nat ∈ index everyone)).
Proof.
  apply (sex_normalisation no_parse mixed_sheet mixed_loaded
           [RInt 1; RStr ""; RInt 0; RStr "n/a"; RFloat (F64.decimal 15 1); RInt 7]
           5%nat (RInt 7) 5%nat); try reflexivity.
  apply NoDup_seq.
Defined.

(** What the rows of [mixed_sheet] become: the empty cell and the text
    are women, the fraction 1.5 is truncated to 1, a man, and the code 7
    has no label and is averaged only under ["All"]. *)
Lemma mixed_sheet_averages :
  compute_avg_age mixed_loaded "Female" = Ok (PyFloat (F64.decimal 453 1))
  /\ compute_avg_age mixed_loaded "Male" = Ok (PyFloat (F64.decimal 665 1))
  /\ compute_avg_age mixed_loaded "All" = Ok (PyFloat (F64.decimal 535 1)).
Proof. repeat split; reflexivity. Qed.

(** ** The task reads its two input nodes and nothing else *)

(** The annotations of [compute_avg_age] are not checked: a filter that is
    not a string matches no row, so the result is 0; a first argument that
    is not a frame fails where the body first uses it as one. *)
Lemma call_compute_avg_age_unannotated :
  call_compute_avg_age [PyFrame two_men; PyInt 5] = Ok [PyInt 0]
  /\ call_compute_avg_age [PyFrame two_men; PyNone] = Ok [PyInt 0]
  /\ call_compute_avg_age [PyFrame no_rows_no_label; PyInt 5]
     = Raise (KeyError "sex_label")
  /\ call_compute_avg_age [PyNone; PyStr "All"] = Raise AttributeError
  /\ call_compute_avg_age [PyNone; PyStr "Male"] = Raise TypeError
  /\ call_compute_avg_age [PyNone; PyNone] = Raise TypeError
  /\ call_compute_avg_age [PyFrame two_men; PyFrame two_men] = Raise ValueError.
Proof. repeat split; reflexivity. Qed.

(** Two executions of the task, in any two stores and scenarios of
    [scenario_cfg] whose input nodes hold the same frame and the same
    string, leave the same value in [avg_age], or raise the same
    exception; nothing else in either store matters. *)
Lemma execute_task_cfg_deterministic c1 s1 sc1 c2 s2 sc2 df g :
  Core.scenarios c1 !! s1 = Some sc1 -> Core.config sc1 = scenario_cfg ->
  Core.scenarios c2 !! s2 = Some sc2 -> Core.config sc2 = scenario_cfg ->
  Core.read c1 s1 "filtered_df" = Ok (PyFrame df) ->
  Core.read c2 s2 "filtered_df" = Ok (PyFrame df) ->
  Core.read c1 s1 "gender_filter" = Ok (PyStr g) ->
  Core.read c2 s2 "gender_filter" = Ok (PyStr g) ->
  (c ← Core.execute task_cfg s1 c1; Core.read c s1 "avg_age")
  = (c ← Core.execute task_cfg s2 c2; Core.read c s2 "avg_age").
Proof.
  intros Hsc1 Hcfg1 Hsc2 Hcfg2 Hdf1 Hdf2 Hg1 Hg2.
  pose proof (CoreFacts.execute_task_cfg_effect c1 s1 sc1 df g Hsc1 Hcfg1 Hdf1 Hg1) as H1.
  pose proof (CoreFacts.execute_task_cfg_effect c2 s2 sc2 df g Hsc2 Hcfg2 Hdf2 Hg2) as H2.
  destruct (compute_avg_age df g) as [v|e].
  - destruct H1 as (c1' & E1 & R1 & _). destruct H2 as (c2' & E2 & R2 & _).
    rewrite E1, E2. simpl. by rewrite R1, R2.
  - by rewrite H1, H2.
Qed.

(** ** The preview and the committed scenario agree *)

(** Selecting twice with the same label is selecting once. *)
Lemma keep_eq_str_idem {A} labels g (col : list A) :
  keep (eq_str (keep (eq_str labels g) labels) g) (keep (eq_str labels g) col)
  = keep (eq_str labels g) col.
Proof.
  revert col. induction labels as [|l labels IH]; intros col; [done|].
  rewrite eq_str_cons. destruct col as [|x col].
  - by rewrite !keep_nil_r.
  - case_bool_decide as Hl; cbn [keep].
    + rewrite eq_str_cons, bool_decide_eq_true_2 by done.
      cbn [keep]. by rewrite IH.
    + apply IH.
Qed.

Lemma select_rows_idem df g sub :
  select_rows df g = Ok sub -> select_rows sub g = Ok sub.
Proof.
  unfold select_rows. destruct (String.eqb g "All"); [done|].
  destruct df as [idx ages sexes [labels|] chols targets]; simpl; [|done].
  intros [= <-]. unfold loc_mask. simpl. do 2 f_equal.
  - apply keep_eq_str_idem.
  - destruct ages; simpl; by rewrite ?keep_eq_str_idem.
  - destruct sexes; simpl; by rewrite ?keep_eq_str_idem.
  - by rewrite keep_eq_str_idem.
  - destruct chols; simpl; by rewrite ?keep_eq_str_idem.
  - destruct targets; simpl; by rewrite ?keep_eq_str_idem.
Qed.

(** The average of the selected rows, filtered again by the same filter,
    is the average of the frame. *)
Lemma compute_avg_age_idem df g sub :
  select_rows df g = Ok sub -> compute_avg_age sub g = compute_avg_age df g.
Proof.
  intros Hsel. unfold compute_avg_age.
  by rewrite (select_rows_idem df g sub Hsel), Hsel.
Qed.

Section PreviewState.
Local Opaque F64.np_round mean groupby_count box_points empty loc_mask eq_str.

(** What [update_dash] leaves in [state.filtered_df]; the selection
    itself is not touched. *)
Lemma update_dash_filtered_df df_raw w :
  gender_selected (gui (fst (update_dash df_raw w))) = gender_selected (gui w)
  /\ match select_rows df_raw (gender_selected (gui w)) with
     | Ok sub => filtered_df (gui (fst (update_dash df_raw w))) = sub
     | Raise e => snd (update_dash df_raw w) = Raise e
                  /\ gui (fst (update_dash df_raw w)) = gui w
     end.
Proof.
  unfold update_dash, select_rows.
  unfold mbind, M_bind, get, assign, eval. simpl.
  destruct (String.eqb (gender_selected (gui w)) "All"); simpl.
  - destruct (empty df_raw); simpl.
    + destruct (groupby_count df_raw); simpl; [|done].
      by destruct (box_points df_raw).
    + destruct (age df_raw); simpl; [|done].
      destruct (groupby_count df_raw); simpl; [|done].
      by destruct (box_points df_raw).
  - destruct (sex_label df_raw) as [labels|]; simpl; [|done].
    set (sub := loc_mask df_raw _).
    destruct (empty sub); simpl.
    + destruct (groupby_count sub); simpl; [|done].
      by destruct (box_points sub).
    + destruct (age sub); simpl; [|done].
      destruct (groupby_count sub); simpl; [|done].
      by destruct (box_points sub).
Qed.
End PreviewState.

(** X21.  After [update_dash] has shown an average, the task run on what
    [save_scenario] would commit - the filtered frame and the selection -
    computes that same average. *)
Theorem committed_average_is_preview df_raw w v :
  compute_avg_age df_raw (gender_selected (gui w)) = Ok v ->
  let st := gui (fst (update_dash df_raw w)) in
  avg_age st = v
  /\ compute_avg_age (filtered_df st) (gender_selected st) = Ok v.
Proof.
  intros Hv. simpl.
  pose proof (update_dash_avg_age df_raw w) as Havg. rewrite Hv in Havg.
  destruct (update_dash_filtered_df df_raw w) as [Hsel Hsub].
  split; [done|]. rewrite Hsel.
  destruct (select_rows df_raw (gender_selected (gui w))) as [sub|e] eqn:Hrows.
  - rewrite Hsub. by rewrite (compute_avg_age_idem df_raw _ sub Hrows).
  - unfold compute_avg_age in Hv. by rewrite Hrows in Hv.
Qed.

(** A session on the loaded [mixed_sheet]: the user picks ["Female"] in
    the first selector, then in the scenario selector, then submits.  The
    live average and the scenario's [avg_age] are both 45.3. *)
Lemma session_mixed_sheet :
  let w1 := fst (select_gender "Female" (update_dash mixed_loaded)
                   (opened mixed_loaded)) in
  let w2 := fst (select_gender "Female" save_scenario w1) in
  let c3 := fst (Core.submit (scenario (gui w2)) (core w2)) in
  avg_age (gui w1) = PyFloat (F64.decimal 453 1)
  /\ events w2 = commit_events 0
  /\ Core.get_node c3 0 "avg_age" = Ok (PyFloat (F64.decimal 453 1))
  /\ Core.status <$> Core.scenarios c3 !! 0%nat = Some Core.DONE.
Proof. vm_compute. repeat split; reflexivity. Qed.

(** * Further properties of the module *)

(** ** Loading (lines 22-23) *)

Section LoadOutcome.
Variable parse : string -> option num.

Lemma length_normalise_sex col sexes :
  normalise_sex parse col = Ok sexes -> length sexes = length col.
Proof.
  unfold normalise_sex, to_numeric.
  destruct (mapM as_int (to_num parse <$> col)) as [zs|] eqn:Hint; simpl.
  - intros [= <-]. apply length_mapM in Hint. by rewrite length_fmap in Hint.
  - destruct (mapM F64.trunc _) as [zs|] eqn:Htr; [|done].
    intros [= <-]. apply length_mapM in Htr.
    rewrite !length_fmap in Htr. by rewrite length_fmap.
Qed.

(** Truncation fails on infinities and NaN only. *)
Lemma trunc_None x :
  F64.trunc x = None <-> x = S754_nan \/ exists s, x = S754_infinity s.
Proof.
  destruct x as [s|s| |s m e]; simpl; split; try done; try by eauto.
  - by intros [|[? ?]].
  - by intros [|[? ?]].
Qed.

(** When [normalise_sex] raises, some cell reads as an infinity. *)
Lemma normalise_sex_Raise col e :
  Forall (reads_small parse) col ->
  normalise_sex parse col = Raise e ->
  e = ValueError /\ Exists (reads_infinite parse) col.
Proof.
  intros Hsmall. unfold normalise_sex, to_numeric.
  destruct (mapM as_int (to_num parse <$> col)) as [zs|] eqn:Hint; simpl; [done|].
  destruct (mapM F64.trunc _) as [zs|] eqn:Htr; [done|].
  intros [= <-]. split; [done|].
  apply mapM_None in Htr. apply Exists_exists in Htr as (x & Hx & Hnone).
  apply list_elem_of_fmap in Hx as (y & -> & Hy).
  apply list_elem_of_fmap in Hy as (n & -> & Hn).
  apply list_elem_of_fmap in Hn as (c & -> & Hc).
  apply Exists_exists. exists c. split; [done|].
  rewrite Forall_forall in Hsmall. specialize (Hsmall c Hc).
  unfold reads_infinite, reads_small in *.
  destruct (to_num parse c) as [[z|f]|]; simpl in Hnone.
  - rewrite F64Facts.of_Z_not_nan, F64Facts.trunc_of_Z in Hnone; [done | by apply Hsmall].
  - destruct (F64.is_nan f) eqn:Hnan; [done|].
    apply trunc_None in Hnone as [-> | [s ->]]; [done | by eauto].
  - done.
Qed.

(** Where a cell reads as an infinity, [normalise_sex] raises. *)
Lemma normalise_sex_infinite col :
  Exists (reads_infinite parse) col ->
  normalise_sex parse col = Raise ValueError.
Proof.
  intros (c & Hc & [s Hs])%Exists_exists.
  unfold normalise_sex, to_numeric.
  assert (mapM as_int (to_num parse <$> col) = None) as ->.
  { apply mapM_None, Exists_exists. exists (to_num parse c).
    split; [by apply list_elem_of_fmap_2|]. by rewrite Hs. }
  simpl. assert (mapM F64.trunc
                   ((fun x => if F64.is_nan x then F64.of_Z 0 else x) <$>
                    (as_float <$> (to_num parse <$> col))) = None) as Hnone.
  { apply mapM_None, Exists_exists. exists (S754_infinity s). split; [|done].
    apply list_elem_of_fmap. exists (S754_infinity s). split; [done|].
    apply list_elem_of_fmap. exists (to_num parse c). split; [by rewrite Hs|].
    by apply list_elem_of_fmap_2. }
  simpl in Hnone. by rewrite Hnone.
Qed.
End LoadOutcome.

(** X1.  Loading has three outcomes.  Without a [sex] column it raises
    [KeyError "sex"].  With one (whole numbers below [2^53]) it raises
    [ValueError] exactly when some cell reads as an infinity - a cell that
    holds an infinite number, or text that [to_numeric] parses as one, such
    as ["inf"] - and otherwise yields a frame. *)
Theorem preprocess_outcome parse raw :
  (forall cells, raw_sex raw = Some cells -> Forall (reads_small parse) cells) ->
  match raw_sex raw with
  | None => preprocess parse raw = Raise (KeyError "sex")
  | Some cells =>
      (Exists (reads_infinite parse) cells
       /\ preprocess parse raw = Raise ValueError)
      \/ (~ Exists (reads_infinite parse) cells
          /\ exists df, preprocess parse raw = Ok df)
  end.
Proof.
  intros Hsmall. unfold preprocess.
  destruct (raw_sex raw) as [cells|]; simpl; [|done].
  specialize (Hsmall cells eq_refl).
  destruct (normalise_sex parse cells) as [sexes|e] eqn:Hnorm; simpl.
  - right. split; [|by eauto].
    intros Hinf%normalise_sex_infinite. congruence.
  - left. destruct (normalise_sex_Raise parse cells e Hsmall Hnorm) as [-> Hinf].
    done.
Qed.

Lemma preprocess_outcome_witness :
  (Exists (reads_infinite no_parse)
     [RInt 1; RFloat (S754_infinity false)]
   /\ preprocess no_parse infinite_sheet = Raise ValueError)
  \/ (~ Exists (reads_infinite no_parse)
        [RInt 1; RFloat (S754_infinity false)]
      /\ exists df, preprocess no_parse infinite_sheet = Ok df).
Proof.
  apply (preprocess_outcome no_parse infinite_sheet).
  intros cells [= <-]. repeat constructor.
  - intros z [= <-]. by vm_compute.
  - intros z [=].
Defined.

(** X2.  Loading keeps the sheet's shape: the index and the columns
    [age], [chol] and [target] are handed on as they are, [sex] and
    [sex_label] get one entry per row, and a well-formed sheet gives a
    well-formed frame. *)
Theorem preprocess_keeps_shape parse raw df :
  raw_well_formed raw ->
  preprocess parse raw = Ok df ->
  well_formed df
  /\ index df = raw_index raw /\ age df = raw_age raw
  /\ chol df = raw_chol raw /\ target df = raw_target raw
  /\ exists cells sexes labels,
       raw_sex raw = Some cells /\ sex df = Some sexes
       /\ sex_label df = Some labels
       /\ length sexes = length cells /\ length labels = length cells.
Proof.
  intros (Hage & Hsex & Hchol & Htarget). unfold preprocess.
  destruct (raw_sex raw) as [cells|] eqn:Hraw; simpl; [|done].
  destruct (normalise_sex parse cells) as [sexes|] eqn:Hnorm; simpl; [|done].
  intros [= <-]. simpl.
  pose proof (length_normalise_sex parse cells sexes Hnorm) as Hlen.
  simpl in Hsex.
  split.
  { unfold well_formed. simpl. repeat split; try done.
    - congruence.
    - unfold map_dict. rewrite length_fmap. congruence. }
  repeat split; try done.
  exists cells, sexes, (map_dict sex_names sexes).
  repeat split; try done. unfold map_dict. by rewrite length_fmap.
Qed.

Lemma preprocess_keeps_shape_witness :
  well_formed mixed_loaded
  /\ index mixed_loaded = raw_index mixed_sheet
  /\ age mixed_loaded = raw_age mixed_sheet
  /\ chol mixed_loaded = raw_chol mixed_sheet
  /\ target mixed_loaded = raw_target mixed_sheet
  /\ exists cells sexes labels,
       raw_sex mixed_sheet = Some cells /\ sex mixed_loaded = Some sexes
       /\ sex_label mixed_loaded = Some labels
       /\ length sexes = length cells /\ length labels = length cells.
Proof.
  apply (preprocess_keeps_shape no_parse mixed_sheet mixed_loaded).
  - repeat split.
  - reflexivity.
Defined.

(** A loaded frame carries no label but ["Female"] and ["Male"]. *)
Lemma loaded_labels parse raw df labels g :
  preprocess parse raw = Ok df ->
  sex_label df = Some labels ->
  Some g ∈ labels ->
  g = "Female" \/ g = "Male".
Proof.
  intros Hpre Hl Hin.
  destruct (preprocess_Ok parse raw df Hpre) as (cells & sexes & _ & _ & _ & _ & Hlab).
  assert (labels = map_dict sex_names sexes) as -> by congruence.
  apply list_elem_of_fmap in Hin as (z & Hz & _).
  rewrite sex_names_lookup in Hz. unfold label_of in Hz.
  repeat case_decide; naive_solver.
Qed.

(** X3.  On a frame produced by the loading code no category is called
    ["All"], so for every category that occurs in [sex_label] the
    function's own filtering agrees with restricting the frame to that
    category first. *)
Theorem loaded_category_average parse raw df labels g df' :
  preprocess parse raw = Ok df ->
  sex_label df = Some labels ->
  Some g ∈ labels ->
  restrict df g = Ok df' ->
  (g = "Female" \/ g = "Male")
  /\ compute_avg_age df g = compute_avg_age df' "All".
Proof.
  intros Hpre Hl Hin Hres.
  pose proof (loaded_labels parse raw df labels g Hpre Hl Hin) as Hg.
  split; [done|].
  rewrite compute_avg_age_via_subset. unfold subset_of.
  rewrite decide_False by (by destruct Hg as [-> | ->]).
  by rewrite Hres.
Qed.

Lemma loaded_category_average_witness :
  ("Male" = "Female" \/ "Male" = "Male")
  /\ compute_avg_age mixed_loaded "Male" = compute_avg_age mixed_men "All".
Proof.
  apply (loaded_category_average no_parse mixed_sheet mixed_loaded
           [Some "Male"; Some "Female"; Some "Female"; Some "Female";
            Some "Male"; None]); try reflexivity.
  constructor.
Defined.

(** A set mask bit of [labels == g] marks a row labelled [g]. *)
Lemma eq_str_lookup_true labels g j :
  eq_str labels g !! j = Some true <-> labels !! j = Some (Some g).
Proof.
  unfold eq_str. rewrite list_lookup_fmap.
  destruct (labels !! j) as [[l|]|]; simpl; split; try done.
  - intros [= Heq]. apply String.eqb_eq in Heq. by subst.
  - intros [= ->]. by rewrite String.eqb_refl.
Qed.

Lemma selections_count labels (idx : list nat) :
  length labels = length idx ->
  Forall (fun l => l = None \/ l = Some "Female" \/ l = Some "Male") labels ->
  (length (keep (eq_str labels "Female") idx)
   + length (keep (eq_str labels "Male") idx)
   + length (unlabelled labels) = length idx)%nat.
Proof.
  intros Hlen Hall. revert idx Hlen.
  induction Hall as [|l labels Hl _ IH]; intros [|k idx] Hlen; try done.
  injection Hlen as Hlen. specialize (IH idx Hlen).
  rewrite !eq_str_cons. unfold unlabelled in *. rewrite filter_cons.
  destruct Hl as [-> | [-> | ->]].
  - rewrite decide_True, !bool_decide_eq_false_2 by done. simpl. lia.
  - rewrite decide_False, bool_decide_eq_true_2, bool_decide_eq_false_2 by done.
    simpl. lia.
  - rewrite decide_False, bool_decide_eq_false_2, bool_decide_eq_true_2 by done.
    simpl. lia.
Qed.

(** X4.  On a loaded frame the ["Female"] and the ["Male"] selection never
    share a row, and together with the rows that have no label they account
    for every row. *)
Theorem loaded_selections_partition parse raw df labels women men :
  raw_well_formed raw ->
  preprocess parse raw = Ok df ->
  sex_label df = Some labels ->
  select_rows df "Female" = Ok women ->
  select_rows df "Male" = Ok men ->
  (length (index women) + length (index men) + length (unlabelled labels)
   = length (index df))%nat
  /\ (NoDup (index df) -> forall k, k ∈ index women -> k ∉ index men).
Proof.
  intros Hwf Hpre Hl Hwomen Hmen.
  assert (Forall (fun l => l = None \/ l = Some "Female" \/ l = Some "Male") labels)
    as Hall.
  { apply Forall_forall. intros [g|] Hin; [|by left]. right.
    destruct (loaded_labels parse raw df labels g Hpre Hl Hin) as [-> | ->]; auto. }
  assert (length labels = length (index df)) as Hlen.
  { destruct (preprocess_Ok parse raw df Hpre)
      as (cells & sexes & Hraw & Hnorm & Hidx & _ & Hlab).
    destruct Hwf as (_ & Hsex & _). rewrite Hraw in Hsex. simpl in Hsex.
    assert (labels = map_dict sex_names sexes) as -> by congruence.
    unfold map_dict. rewrite length_fmap, Hidx, <- Hsex.
    by apply length_normalise_sex in Hnorm. }
  unfold select_rows in Hwomen, Hmen. rewrite Hl in Hwomen, Hmen.
  simpl in Hwomen, Hmen. injection Hwomen as <-. injection Hmen as <-. simpl.
  split; [by apply selections_count|].
  intros Hnd k (j & Hj & Hk)%elem_of_keep (j' & Hj' & Hk')%elem_of_keep.
  assert (j = j') as <- by (by eapply NoDup_lookup).
  apply eq_str_lookup_true in Hj, Hj'. congruence.
Qed.

Lemma loaded_selections_partition_witness :
  (length [1; 2; 3]%nat + length [0; 4]%nat + length (unlabelled [@None string])
   = length (index mixed_loaded))%nat
  /\ (NoDup (index mixed_loaded) ->
      forall k, k ∈ [1; 2; 3]%nat -> k ∉ [0; 4]%nat).
Proof.
  refine (loaded_selections_partition no_parse mixed_sheet mixed_loaded
           [Some "Male"; Some "Female"; Some "Female"; Some "Female";
            Some "Male"; None] mixed_women mixed_men _ eq_refl eq_refl eq_refl eq_refl).
  repeat split.
Defined.

(** ** [compute_avg_age] (lines 29-39) *)




(** X7.  Filtering is idempotent: the rows [compute_avg_age] selects,
    given back to it with the same filter, have the same average.  This
    is why committing the already filtered frame loses nothing. *)
Theorem refiltering_keeps_average df g sub :
  select_rows df g = Ok sub ->
  select_rows sub g = Ok sub
  /\ compute_avg_age sub g = compute_avg_age df g.
Proof.
  intros Hsel. split; [by eapply select_rows_idem | by apply compute_avg_age_idem].
Qed.

Lemma refiltering_keeps_average_witness :
  select_rows mixed_women "Female" = Ok mixed_women
  /\ compute_avg_age mixed_women "Female" = compute_avg_age mixed_loaded "Female".
Proof. apply refiltering_keeps_average. reflexivity. Defined.

(** The rows selected for [g1] are all labelled [g1]. *)
Lemma keep_eq_str_labels labels g1 l :
  l ∈ keep (eq_str labels g1) labels -> l = Some g1.
Proof.
  intros (j & Hj & Hl)%elem_of_keep.
  apply eq_str_lookup_true in Hj. congruence.
Qed.

Lemma eq_str_all_false labels g :
  Forall (fun l => l <> Some g) labels ->
  Forall (fun b => b = false) (eq_str labels g).
Proof.
  induction 1 as [|l labels Hl _ IH]; [constructor|].
  rewrite eq_str_cons. constructor; [|done].
  by rewrite bool_decide_eq_false_2.
Qed.

Lemma select_other_gender df g1 g2 sub :
  g1 <> "All" -> g2 <> "All" -> g1 <> g2 ->
  select_rows df g1 = Ok sub ->
  exists none, select_rows sub g2 = Ok none
    /\ index none = []
    /\ compute_avg_age sub g2 = Ok (PyInt 0).
Proof.
  intros Hg1 Hg2 Hne. rewrite !select_rows_other by done.
  destruct (sex_label df) as [labels|] eqn:Hl; simpl; [|done].
  intros [= <-].
  assert (Forall (fun b => b = false)
            (eq_str (keep (eq_str labels g1) labels) g2)) as Hfalse.
  { apply eq_str_all_false, Forall_forall.
    intros l Hin%keep_eq_str_labels. congruence. }
  unfold compute_avg_age. rewrite select_rows_other by done.
  simpl. rewrite Hl. simpl. eexists. split; [done|].
  simpl. rewrite keep_all_false by done. split; [done|].
  by rewrite empty_no_rows by (simpl; by rewrite keep_all_false).
Qed.

(** X8.  Two different genders select disjoint rows: the rows selected
    for one gender, filtered by another, are none, and their average is
    the integer [0]. *)
Theorem other_gender_is_empty df g1 g2 sub :
  g1 <> "All" -> g2 <> "All" -> g1 <> g2 ->
  select_rows df g1 = Ok sub ->
  exists none, select_rows sub g2 = Ok none
    /\ index none = []
    /\ compute_avg_age sub g2 = Ok (PyInt 0).
Proof. apply select_other_gender. Qed.

Lemma other_gender_is_empty_witness :
  exists none,
    select_rows mixed_men "Female" = Ok none
    /\ index none = []
    /\ compute_avg_age mixed_men "Female" = Ok (PyInt 0).
Proof.
  apply (other_gender_is_empty mixed_loaded "Male" "Female");
    [discriminate | discriminate | discriminate | reflexivity].
Defined.

(** ** The sign of the average *)

Lemma binary_round_aux_sign s m e l :
  0 <= m -> signbit (binary_round_aux F64.prec F64.emax s m e l) = s.
Proof.
  intros Hm. unfold binary_round_aux.
  pose proof (F64Facts.shr_fexp_nonneg m e l Hm) as H1.
  destruct (shr_fexp F64.prec F64.emax m e l) as [mrs' e'] eqn:E1. simpl in H1.
  pose proof (F64Facts.shr_fexp_nonneg _ e' loc_Exact
                (F64Facts.round_nearest_even_nonneg _ (loc_of_shr_record mrs') H1))
    as H2.
  destruct (shr_fexp F64.prec F64.emax _ e' loc_Exact) as [mrs'' e''] eqn:E2.
  simpl in H2.
  destruct (shr_m mrs'') as [|p|p]; [done | | lia].
  by destruct (Z.leb e'' _).
Qed.

Lemma of_Z_sign z : 0 <= z -> signbit (F64.of_Z z) = false.
Proof.
  intros Hz. unfold F64.of_Z, binary_normalize, binary_round.
  destruct z as [|p|p]; [done | | lia].
  destruct (shl_align _ _ _) as [mz ez]. by apply binary_round_aux_sign.
Qed.

Lemma mul_sign x y :
  signbit x = false -> signbit y = false -> signbit (F64.mul x y) = false.
Proof.
  destruct x as [sx|sx| |sx mx ex], y as [sy|sy| |sy my ey]; simpl;
    intros Hx Hy; subst; try done.
  by apply binary_round_aux_sign.
Qed.

Lemma div_sign x y :
  signbit x = false -> signbit y = false -> signbit (F64.div x y) = false.
Proof.
  destruct x as [sx|sx| |sx mx ex], y as [sy|sy| |sy my ey]; simpl;
    intros Hx Hy; subst; try done.
  unfold SFdiv_core_binary.
  set (k := _ - _ - Z.min _ _).
  set (m' := match k with Z.pos _ => Z.shiftl (Z.pos mx) k | 0 => Z.pos mx | _ => 0 end).
  assert (0 <= m') as Hm'.
  { unfold m'. destruct k; [lia | | lia]. apply Z.shiftl_nonneg. lia. }
  pose proof (Z.div_pos m' (Z.pos my) Hm' ltac:(lia)) as Hq.
  unfold Z.div in Hq. destruct (Z.div_eucl m' (Z.pos my)) as [q r]. simpl in Hq.
  by apply binary_round_aux_sign.
Qed.

Lemma div_half_even_nonneg m d : 0 <= m -> 0 < d -> 0 <= F64.div_half_even m d.
Proof.
  intros Hm Hd. unfold F64.div_half_even.
  pose proof (Z.div_pos m d Hm Hd).
  destruct (_ ?= _); [destruct (Z.even _) | |]; lia.
Qed.

Lemma rint_sign x : signbit x = false -> signbit (F64.rint x) = false.
Proof.
  destruct x as [sx|sx| |sx mx ex]; simpl; try done. intros ->.
  destruct (0 <=? ex) eqn:Hex; [done|]. simpl.
  apply of_Z_sign, div_half_even_nonneg; [lia|].
  apply Z.pow_pos_nonneg; lia.
Qed.

Lemma np_round_sign x n : signbit x = false -> signbit (F64.np_round x n) = false.
Proof.
  intros Hx. unfold F64.np_round.
  assert (signbit (F64.of_Z (10 ^ Z.of_nat n)) = false) as Hten.
  { apply of_Z_sign, Z.pow_nonneg. lia. }
  apply div_sign; [|done]. by apply rint_sign, mul_sign.
Qed.

Lemma sum_nonneg l : Forall (fun a => 0 <= a) l -> 0 <= sum l.
Proof. induction 1; simpl; lia. Qed.

Lemma mean_sign l : Forall (fun a => 0 <= a) l -> signbit (mean l) = false.
Proof.
  intros Hl. unfold mean.
  apply div_sign; apply of_Z_sign; [by apply sum_nonneg | lia].
Qed.

Lemma Forall_keep {A} (P : A -> Prop) mask (l : list A) :
  Forall P l -> Forall P (keep mask l).
Proof.
  intros Hl. apply Forall_forall. intros x (j & _ & Hx)%elem_of_keep.
  by eapply Forall_lookup_1.
Qed.

(** X9.  When no age in the frame is negative, the average is not
    negative either, and is never the negative zero: whatever the filter,
    a float result has a clear sign bit. *)
Theorem average_of_nonnegative_ages df g ages f :
  age df = Some ages ->
  Forall (fun a => 0 <= a) ages ->
  compute_avg_age df g = Ok (PyFloat f) ->
  signbit f = false.
Proof.
  intros Hage Hpos. unfold compute_avg_age, select_rows.
  destruct (String.eqb g "All"); simpl.
  - destruct (empty df); simpl; [done|]. rewrite Hage. simpl.
    intros [= <-]. by apply np_round_sign, mean_sign.
  - destruct (sex_label df) as [labels|]; simpl; [|done].
    destruct (empty _); simpl; [done|]. rewrite Hage. simpl.
    intros [= <-]. by apply np_round_sign, mean_sign, Forall_keep.
Qed.

Lemma average_of_nonnegative_ages_witness : signbit (F64.of_Z 54) = false.
Proof.
  apply (average_of_nonnegative_ages two_men "Male" [61; 47]).
  - reflexivity.
  - repeat constructor; lia.
  - reflexivity.
Defined.

(** ** [update_dash] (lines 75-94) *)

Section UpdateDash.
Local Opaque F64.np_round mean groupby_count box_points empty loc_mask eq_str.

(** [update_dash] runs its four assignments in order and stops at the
    first expression that raises. *)
Lemma update_dash_run df_raw w : update_dash df_raw w = update_dash_steps df_raw w.
Proof.
  unfold update_dash, update_dash_steps, select_rows.
  unfold mbind, M_bind, get, assign, eval, with_gui. simpl.
  destruct (String.eqb (gender_selected (gui w)) "All"); simpl.
  - rewrite compute_avg_age_All.
    destruct (empty df_raw); simpl.
    + destruct (groupby_count df_raw); simpl; [|done].
      by destruct (box_points df_raw).
    + destruct (age df_raw); simpl; [|done].
      destruct (groupby_count df_raw); simpl; [|done].
      by destruct (box_points df_raw).
  - destruct (sex_label df_raw) as [labels|]; simpl; [|done].
    set (sub := loc_mask df_raw _). rewrite compute_avg_age_All.
    destruct (empty sub); simpl.
    + destruct (groupby_count sub); simpl; [|done].
      by destruct (box_points sub).
    + destruct (age sub); simpl; [|done].
      destruct (groupby_count sub); simpl; [|done].
      by destruct (box_points sub).
Qed.
End UpdateDash.

Section UpdateDashFacts.
Local Opaque select_rows compute_avg_age groupby_count box_points.

Lemma update_dash_keeps df_raw w :
  core (fst (update_dash df_raw w)) = core w
  /\ events (fst (update_dash df_raw w)) = events w
  /\ gender_selected (gui (fst (update_dash df_raw w))) = gender_selected (gui w)
  /\ scenario (gui (fst (update_dash df_raw w))) = scenario (gui w).
Proof.
  rewrite update_dash_run. unfold update_dash_steps.
  destruct (select_rows _ _); [|done].
  destruct (compute_avg_age _ _); [|done].
  destruct (groupby_count _); [|done].
  by destruct (box_points _).
Qed.

(** X10.  [update_dash] is confined to the four display variables:
    whether it completes or raises, it leaves the scenarios, the events,
    the selection and the selected scenario as they were. *)
Theorem update_dash_confined df_raw w :
  core (fst (update_dash df_raw w)) = core w
  /\ events (fst (update_dash df_raw w)) = events w
  /\ gender_selected (gui (fst (update_dash df_raw w))) = gender_selected (gui w)
  /\ scenario (gui (fst (update_dash df_raw w))) = scenario (gui w).
Proof. apply update_dash_keeps. Qed.

(** X11.  Running [update_dash] again changes nothing: the second run
    ends in the same world with the same outcome as the first, whether
    that was a completed update or an exception part-way. *)
Theorem update_dash_idempotent df_raw w :
  update_dash df_raw (fst (update_dash df_raw w)) = update_dash df_raw w.
Proof.
  rewrite (update_dash_run df_raw w), update_dash_run. unfold update_dash_steps.
  destruct w as [c [g fd pie box avg sid] evs]. simpl.
  destruct (select_rows df_raw g) as [sub|] eqn:Hsel; simpl; [|by rewrite Hsel].
  destruct (compute_avg_age sub "All") as [v|] eqn:Havg; simpl;
    [|by rewrite Hsel, Havg].
  destruct (groupby_count sub) as [counts|] eqn:Hpie; simpl;
    [|by rewrite Hsel, Havg, Hpie].
  destruct (box_points sub) as [points|] eqn:Hbox; simpl;
    by rewrite Hsel, Havg, Hpie, Hbox.
Qed.
End UpdateDashFacts.

(** ** The pie chart data (lines 87-91) *)

Lemma length_keep_eq_str {A} labels k (values : list A) :
  length labels = length values ->
  length (keep (eq_str labels k) values) = count_label k labels.
Proof.
  unfold count_label. revert values.
  induction labels as [|l labels IH]; intros [|v values] Hlen; try done.
  injection Hlen as Hlen. rewrite eq_str_cons, filter_cons.
  case_bool_decide; cbn [keep].
  - rewrite decide_True by done. simpl. by rewrite IH.
  - rewrite decide_False by done. by rewrite IH.
Qed.

Lemma count_label_omap k labels :
  count_label k labels = length (filter (fun x => x = k) (omap id labels)).
Proof.
  unfold count_label. induction labels as [|[l|] labels IH]; [done| |].
  - rewrite filter_cons. cbn [omap list_omap id]. rewrite filter_cons.
    destruct (decide (l = k)) as [->|Hne].
    + rewrite decide_True by done. simpl. by rewrite IH.
    + rewrite decide_False by congruence. by rewrite IH.
  - rewrite filter_cons, decide_False by done. by rewrite IH.
Qed.

Lemma sum_indicator (ks : list string) x :
  NoDup ks -> x ∈ ks ->
  sum_list_with (fun k => if decide (x = k) then 1 else 0)%nat ks = 1%nat.
Proof.
  induction 1 as [|k ks Hk Hnd IH]; [by intros ?%elem_of_nil|].
  intros [-> | Hin]%elem_of_cons; simpl.
  - rewrite decide_True by done.
    assert (sum_list_with (fun k0 => if decide (k = k0) then 1 else 0)%nat ks = 0%nat)
      as ->; [|done].
    clear IH Hnd. induction ks as [|k' ks IH]; [done|]. simpl.
    rewrite decide_False by set_solver. apply IH. set_solver.
  - rewrite decide_False by (intros ->; done). by rewrite IH.
Qed.

(** Over distinct keys that cover the list, the group sizes add up to
    the length of the list. *)
Lemma sum_group_sizes (ks L : list string) :
  NoDup ks -> (forall x, x ∈ L -> x ∈ ks) ->
  sum_list_with (fun k => length (filter (fun x => x = k) L)) ks = length L.
Proof.
  intros Hnd. induction L as [|x L IH]; intros Hcover.
  - clear. induction ks as [|k ks IHks]; [done|]. by simpl.
  - transitivity
      (sum_list_with (fun k => if decide (x = k) then 1 else 0)%nat ks
       + sum_list_with (fun k => length (filter (fun x => x = k) L)) ks)%nat.
    + clear. induction ks as [|k ks IHks]; [done|]. simpl.
      rewrite filter_cons. case_decide; simpl; lia.
    + rewrite sum_indicator, IH; [done | | done |].
      * intros y Hy. apply Hcover. by right.
      * apply Hcover. by left.
Qed.

Lemma sum_list_with_pointwise {A} (f g : A -> nat) (l : list A) :
  (forall a, f a = g a) -> sum_list_with f l = sum_list_with g l.
Proof. intros Hfg. induction l as [|a l IH]; simpl; [done|]. by rewrite Hfg, IH. Qed.

Lemma sum_of_nat {A} (f : A -> nat) (l : list A) :
  sum ((fun a => Z.of_nat (f a)) <$> l) = Z.of_nat (sum_list_with f l).
Proof.
  induction l as [|a l IH]; [done|].
  rewrite fmap_cons. cbn [sum foldr sum_list_with].
  unfold sum in IH. rewrite IH. lia.
Qed.

#[local] Instance str_le_total : Total (fun a b => Is_true (String.leb a b)).
Proof.
  intros a b. destruct (String.leb_total a b) as [H|H]; [left|right]; by rewrite H.
Qed.

(** The rows of [groupby("sex_label")["target"].count()] on a well-formed
    frame: keys and sizes. *)
Lemma groupby_count_Ok df labels values :
  sex_label df = Some labels -> target df = Some values ->
  groupby_count df =
    Ok ((fun k => (k, Z.of_nat (length (keep (eq_str labels k) values))))
          <$> merge_sort (fun a b => Is_true (String.leb a b))
                (remove_dups (omap id labels))).
Proof. intros Hl Hv. unfold groupby_count. by rewrite Hl, Hv. Qed.

Lemma groupby_count_facts df labels slices :
  well_formed df ->
  sex_label df = Some labels ->
  groupby_count df = Ok slices ->
  NoDup slices.*1
  /\ Sorted str_le slices.*1
  /\ (forall k, k ∈ slices.*1 <-> Some k ∈ labels)
  /\ (forall k n, (k, n) ∈ slices -> n = Z.of_nat (count_label k labels) /\ 0 < n)
  /\ sum slices.*2 = Z.of_nat (length labels - length (unlabelled labels)).
Proof.
  intros (_ & _ & Hfl & _ & Hft) Hl Hcount.
  destruct (target df) as [values|] eqn:Hv;
    [|by unfold groupby_count in Hcount; rewrite Hl, Hv in Hcount].
  rewrite Hl in Hfl. simpl in Hfl, Hft.
  rewrite (groupby_count_Ok df labels values Hl Hv) in Hcount.
  injection Hcount as <-.
  set (keys := merge_sort _ _).
  assert (keys ≡ₚ remove_dups (omap id labels)) as Hperm
    by apply merge_sort_Permutation.
  assert (forall k, k ∈ keys <-> Some k ∈ labels) as Hkeys.
  { intros k. rewrite Hperm, elem_of_remove_dups, list_elem_of_omap.
    split; [by intros ([l|] & ? & [= ->]) | intros ?; by exists (Some k)]. }
  assert (forall k, length (keep (eq_str labels k) values) = count_label k labels)
    as Hsize by (intros k; apply length_keep_eq_str; congruence).
  rewrite <- !list_fmap_compose.
  assert ((fst ∘ (fun k => (k, Z.of_nat (length (keep (eq_str labels k) values)))))
            <$> keys = keys) as ->.
  { rewrite <- (list_fmap_id keys) at 2. by apply list_fmap_ext. }
  split; [rewrite Hperm; apply NoDup_remove_dups|].
  split; [apply (Sorted_merge_sort (fun a b => Is_true (String.leb a b)))|].
  split; [done|].
  split.
  { intros k n (k' & [= -> ->] & Hin)%list_elem_of_fmap.
    rewrite Hsize. split; [done|].
    apply Hkeys in Hin. unfold count_label.
    apply list_elem_of_In, in_split in Hin as (l1 & l2 & ->).
    rewrite filter_app, filter_cons, decide_True by done.
    rewrite length_app. simpl. lia. }
  erewrite (list_fmap_ext _ (fun k => Z.of_nat (count_label k labels)));
    [|intros ? k ?; simpl; by rewrite Hsize].
  rewrite (sum_of_nat (fun k => count_label k labels)). f_equal.
  rewrite (sum_list_with_pointwise _
             (fun k => length (filter (fun x => x = k) (omap id labels))))
    by (intros k; apply count_label_omap).
  rewrite Hperm, sum_group_sizes;
    [| apply NoDup_remove_dups | intros x; by rewrite elem_of_remove_dups].
  clear. unfold unlabelled.
  induction labels as [|[l|] labels IH]; [done| |].
  - cbn [omap list_omap id]. rewrite filter_cons, decide_False by done.
    simpl. pose proof (length_filter (fun l => l = None) labels). lia.
  - cbn [omap list_omap]. rewrite filter_cons, decide_True by done.
    simpl. pose proof (length_filter (fun l : option string => l = None) labels). lia.
Qed.


Lemma select_rows_defined df g :
  is_Some (sex_label df) -> exists sub, select_rows df g = Ok sub.
Proof.
  intros [labels Hl]. unfold select_rows.
  destruct (String.eqb _ _); [by eauto|]. rewrite Hl. simpl. by eauto.
Qed.






(** X14.  The rows of the pie chart, on a well-formed frame: one row per
    label that occurs, labels in ascending order without repetition, each
    with the number of rows that carry it (never zero); together they
    count every row that has a label. *)
Theorem pie_rows_account_for_labels df labels slices :
  well_formed df ->
  sex_label df = Some labels ->
  groupby_count df = Ok slices ->
  NoDup slices.*1
  /\ Sorted str_le slices.*1
  /\ (forall k, k ∈ slices.*1 <-> Some k ∈ labels)
  /\ (forall k n, (k, n) ∈ slices -> n = Z.of_nat (count_label k labels) /\ 0 < n)
  /\ sum slices.*2 = Z.of_nat (length labels - length (unlabelled labels)).
Proof. apply groupby_count_facts. Qed.

Lemma pie_rows_account_for_labels_witness :
  let slices := [("Female", 3); ("Male", 2)] in
  let labels := [Some "Male"; Some "Female"; Some "Female"; Some "Female";
                 Some "Male"; None] in
  NoDup slices.*1
  /\ Sorted str_le slices.*1
  /\ (forall k, k ∈ slices.*1 <-> Some k ∈ labels)
  /\ (forall k n, (k, n) ∈ slices -> n = Z.of_nat (count_label k labels) /\ 0 < n)
  /\ sum slices.*2 = Z.of_nat (length labels - length (unlabelled labels)).
Proof.
  apply (pie_rows_account_for_labels mixed_loaded); [repeat split | reflexivity..].
Defined.

Lemma count_label_all labels g :
  Forall (fun l => l = Some g) labels -> count_label g labels = length labels.
Proof.
  unfold count_label. induction 1 as [|l labels -> _ IH]; [done|].
  rewrite filter_cons, decide_True by done. simpl. by rewrite IH.
Qed.

(** X15.  With a gender selected, the pie chart has a single row, that
    gender with the number of selected rows, or no row at all when
    nothing is selected. *)
Theorem pie_of_one_gender df g sub slices :
  well_formed df ->
  g <> "All" ->
  select_rows df g = Ok sub ->
  groupby_count sub = Ok slices ->
  slices = match index sub with
           | [] => []
           | _ :: _ => [(g, Z.of_nat (length (index sub)))]
           end.
Proof.
  intros Hwf Hg Hsel Hslices.
  rewrite select_rows_other in Hsel by done.
  destruct (sex_label df) as [labels|] eqn:Hl; simpl in Hsel; [|done].
  injection Hsel as <-.
  pose proof (well_formed_loc_mask df (eq_str labels g) Hwf) as Hwf'.
  set (sub := loc_mask df (eq_str labels g)) in *.
  assert (sex_label sub = Some (keep (eq_str labels g) labels)) as Hl'
    by (simpl; by rewrite Hl).
  set (labels' := keep (eq_str labels g) labels) in *.
  assert (Forall (fun l => l = Some g) labels') as Hall.
  { apply Forall_forall. intros l. apply keep_eq_str_labels. }
  assert (length labels' = length (index sub)) as Hlen.
  { destruct Hwf' as (_ & _ & Hfit & _). by rewrite Hl' in Hfit. }
  destruct (groupby_count_facts sub labels' slices Hwf' Hl' Hslices)
    as (Hnd & _ & Hkeys & Hsizes & Hsum).
  assert (length (unlabelled labels') = 0%nat) as Hnone.
  { unfold unlabelled. clear -Hall. induction Hall as [|l ls -> _ IH]; [done|].
    by rewrite filter_cons, decide_False. }
  rewrite Hnone, Nat.sub_0_r, Hlen in Hsum.
  assert (forall k n, (k, n) ∈ slices ->
            k = g /\ n = Z.of_nat (length (index sub))) as Hrow.
  { intros k n Hin.
    assert (Some k ∈ labels') as Hk.
    { apply Hkeys, list_elem_of_fmap. by exists (k, n). }
    destruct (Hsizes k n Hin) as [-> _].
    pose proof (proj1 (Forall_forall _ _) Hall _ Hk) as [= ->].
    by rewrite count_label_all, Hlen. }
  destruct slices as [|[k n] [|[k' n'] rest]].
  - destruct (index sub); [done|].
    change (0 = Z.of_nat (S (length l))) in Hsum. lia.
  - destruct (Hrow k n) as [-> ->]; [by left|].
    destruct (Hsizes g _ ltac:(by left)) as [_ Hpos].
    destruct (index sub); [simpl in Hpos; lia | done].
  - destruct (Hrow k n) as [-> _]; [by left|].
    destruct (Hrow k' n') as [-> _]; [right; by left|].
    simpl in Hnd. apply NoDup_cons in Hnd as [Hnd _]. exfalso. apply Hnd. by left.
Qed.

Lemma pie_of_one_gender_witness :
  [("Male", 2)] = match index mixed_men with
                  | [] => []
                  | _ :: _ => [("Male", Z.of_nat (length (index mixed_men)))]
                  end.
Proof.
  apply (pie_of_one_gender mixed_loaded "Male" mixed_men);
    [repeat split | discriminate | reflexivity | reflexivity].
Defined.

(** ** [save_scenario] and the two selectors (lines 100-107, 117-135) *)

Section CommitFacts.
Import Core CoreFacts.
Local Opaque compute_avg_age.

Lemma written_twice sc df g :
  written "gender_filter" g
    (written "filtered_df" df
       (written "gender_filter" g (written "filtered_df" df sc)))
  = written "gender_filter" g (written "filtered_df" df sc).
Proof.
  unfold written. simpl. f_equal.
  rewrite (insert_insert_ne _ "filtered_df" "gender_filter") by done.
  by rewrite insert_insert_eq, insert_insert_eq.
Qed.

(** X16.  Committing twice is committing once: a second [save_scenario]
    leaves the scenarios and the GUI state exactly as the first did, and
    only repeats the four events. *)
Theorem save_scenario_idempotent w sc :
  scenarios (core w) !! scenario (gui w) = Some sc ->
  config sc = scenario_cfg ->
  let w1 := fst (save_scenario w) in
  exists w2, save_scenario w1 = (w2, Ok ())
    /\ core w2 = core w1
    /\ gui w2 = gui w1
    /\ events w2 = events w1 ++ commit_events (scenario (gui w)).
Proof.
  intros Hsc Hcfg. simpl. rewrite (save_scenario_run w sc Hsc Hcfg). simpl.
  set (sc1 := written "gender_filter" _ (written "filtered_df" _ sc)).
  eexists. split.
  { apply (save_scenario_run _ sc1); [simpl; apply lookup_insert_eq | done]. }
  simpl. split; [|done]. f_equal.
  rewrite insert_insert_eq. f_equal. apply written_twice.
Qed.

Lemma save_scenario_idempotent_witness :
  exists w2,
    save_scenario (fst (save_scenario (picked two_men "Male"))) = (w2, Ok ())
    /\ core w2 = core (fst (save_scenario (picked two_men "Male")))
    /\ gui w2 = gui (fst (save_scenario (picked two_men "Male")))
    /\ events w2
       = events (fst (save_scenario (picked two_men "Male"))) ++ commit_events 0.
Proof.
  exact (save_scenario_idempotent (picked two_men "Male") _ eq_refl eq_refl).
Defined.

(** X17.  [save_scenario] notifies only after both writes went through.
    If the first write raises, nothing has happened at all; if the second
    raises, the frame is committed without its filter and neither the
    refresh nor the notification is sent.  The GUI state is never
    changed. *)
Theorem save_scenario_notifies_after_success w :
  let sid := scenario (gui w) in
  let w' := fst (save_scenario w) in
  gui w' = gui w
  /\ match snd (save_scenario w) with
     | Ok _ => events w' = events w ++ commit_events sid
     | Raise e =>
         w' = w
         \/ events w' = events w ++ [EvWrite sid "filtered_df"]
            /\ Core.read (core w') sid "filtered_df"
               = Ok (PyFrame (filtered_df (gui w)))
     end.
Proof.
  simpl. unfold save_scenario.
  unfold mbind, M_bind, get, node_write, refresh, notify, emit. simpl.
  destruct (write (scenario (gui w)) "filtered_df" _ (core w)) as [c1|e1] eqn:Hw1;
    simpl; [|by auto].
  destruct (write (scenario (gui w)) "gender_filter" _ c1) as [c2|e2] eqn:Hw2; simpl.
  - split; [done|]. by rewrite <- !app_assoc.
  - split; [done|]. right. split; [done|]. by eapply read_write_same.
Qed.

Lemma select_gender_run g (on_change : M unit) w :
  select_gender g on_change w = on_change (with_gui (set_gender_selected g) w).
Proof. done. Qed.
End CommitFacts.

Lemma save_scenario_notifies_after_success_witness :
  gui (fst (save_scenario dangling)) = gui dangling
  /\ (fst (save_scenario dangling) = dangling
      \/ events (fst (save_scenario dangling))
         = events dangling ++ [EvWrite 7 "filtered_df"]
         /\ Core.read (core (fst (save_scenario dangling))) 7 "filtered_df"
            = Ok (PyFrame two_men)).
Proof. exact (save_scenario_notifies_after_success dangling). Defined.

Section Session.
Import Core CoreFacts.

(** The nodes of the selected scenario after [save_scenario]. *)
Lemma save_scenario_nodes w sc :
  scenarios (core w) !! scenario (gui w) = Some sc ->
  config sc = scenario_cfg ->
  let w' := fst (save_scenario w) in
  snd (save_scenario w) = Ok ()
  /\ gui w' = gui w
  /\ scenarios (core w') !! scenario (gui w)
     = Some (written "gender_filter" (PyStr (gender_selected (gui w)))
               (written "filtered_df" (PyFrame (filtered_df (gui w))) sc)).
Proof.
  intros Hsc Hcfg. simpl. rewrite (save_scenario_run w sc Hsc Hcfg). simpl.
  split; [done|]. split; [done|]. apply lookup_insert_eq.
Qed.

(** X18.  The scenario selector commits a stale frame.  It is bound to
    the same variable as the dashboard selector but calls [save_scenario]
    only, so [state.filtered_df] still holds the rows of the gender picked
    on the dashboard: after picking [g1] there and a different gender [g2]
    here, the scenario holds the rows of [g1] with the filter [g2], and
    its task computes [0] for them. *)
Theorem scenario_selector_commits_stale_frame df_raw w sc g1 g2 :
  scenarios (core w) !! scenario (gui w) = Some sc ->
  config sc = scenario_cfg ->
  is_Some (sex_label df_raw) ->
  g1 <> "All" -> g2 <> "All" -> g1 <> g2 ->
  let w1 := fst (select_gender g1 (update_dash df_raw) w) in
  let w2 := fst (select_gender g2 save_scenario w1) in
  exists rows_g1,
    select_rows df_raw g1 = Ok rows_g1
    /\ read (core w2) (scenario (gui w)) "filtered_df" = Ok (PyFrame rows_g1)
    /\ read (core w2) (scenario (gui w)) "gender_filter" = Ok (PyStr g2)
    /\ compute_avg_age rows_g1 g2 = Ok (PyInt 0).
Proof.
  intros Hsc Hcfg Hlab Hg1 Hg2 Hne. simpl.
  destruct (select_rows_defined df_raw g1 Hlab) as [sub Hsel].
  rewrite !select_gender_run.
  set (wa := with_gui (set_gender_selected g1) w).
  destruct (update_dash_keeps df_raw wa) as (Hcore & _ & _ & Hsid).
  destruct (update_dash_filtered_df df_raw wa) as [_ Hfd].
  change (gender_selected (gui wa)) with g1 in Hfd. rewrite Hsel in Hfd.
  set (w1 := fst (update_dash df_raw wa)) in *.
  set (wb := with_gui (set_gender_selected g2) w1).
  assert (scenario (gui wb) = scenario (gui w)) as Hsidb by (simpl; by rewrite Hsid).
  assert (scenarios (core wb) !! scenario (gui wb) = Some sc) as Hscb.
  { rewrite Hsidb. simpl. by rewrite Hcore. }
  destruct (save_scenario_nodes wb sc Hscb Hcfg) as (_ & _ & Hnodes).
  rewrite Hsidb in Hnodes. simpl in Hnodes.
  exists sub. split; [done|].
  assert (forall name, name ∈ node_names scenario_cfg ->
            name ∈ node_names (config sc)) as Hin by (by rewrite Hcfg).
  rewrite node_names_scenario_cfg in Hin.
  split; [|split].
  - erewrite read_Ok; [|exact Hnodes|simpl; apply Hin; set_solver].
    simpl. rewrite lookup_insert_ne, lookup_insert_eq by done. simpl.
    by rewrite Hfd.
  - erewrite read_Ok; [|exact Hnodes|simpl; apply Hin; set_solver].
    simpl. by rewrite lookup_insert_eq.
  - by destruct (select_other_gender df_raw g1 g2 sub Hg1 Hg2 Hne Hsel)
      as (? & _ & _ & ?).
Qed.

Lemma scenario_selector_commits_stale_frame_witness :
  exists rows_g1,
    select_rows mixed_loaded "Male" = Ok rows_g1
    /\ read (core (fst (select_gender "Female" save_scenario
                         (fst (select_gender "Male" (update_dash mixed_loaded)
                                 (opened mixed_loaded))))))
         0 "filtered_df" = Ok (PyFrame rows_g1)
    /\ read (core (fst (select_gender "Female" save_scenario
                         (fst (select_gender "Male" (update_dash mixed_loaded)
                                 (opened mixed_loaded))))))
         0 "gender_filter" = Ok (PyStr "Female")
    /\ compute_avg_age rows_g1 "Female" = Ok (PyInt 0).
Proof.
  refine (scenario_selector_commits_stale_frame mixed_loaded (opened mixed_loaded)
            _ "Male" "Female" eq_refl eq_refl _ _ _ _);
    [by eexists | discriminate | discriminate | discriminate].
Defined.

(** X19.  From the dashboard to the scenario: after [update_dash] has
    shown an average, [save_scenario] and a submission leave that same
    average in the node [avg_age]; the scenario is done. *)
Theorem dashboard_average_reaches_scenario df_raw w sc v :
  scenarios (core w) !! scenario (gui w) = Some sc ->
  config sc = scenario_cfg ->
  status sc <> RUNNING ->
  compute_avg_age df_raw (gender_selected (gui w)) = Ok v ->
  let w1 := fst (update_dash df_raw w) in
  let w2 := fst (save_scenario w1) in
  exists c3,
    avg_age (gui w2) = v
    /\ submit (scenario (gui w)) (core w2) = (c3, Ok ())
    /\ get_node c3 (scenario (gui w)) "avg_age" = Ok v
    /\ status <$> scenarios c3 !! scenario (gui w) = Some DONE.
Proof.
  intros Hsc Hcfg Hrun Hv. simpl.
  destruct (update_dash_keeps df_raw w) as (Hcore & _ & Hsel & Hsid).
  pose proof (update_dash_avg_age df_raw w) as Havg. rewrite Hv in Havg.
  destruct (update_dash_filtered_df df_raw w) as [_ Hfd].
  destruct (select_rows df_raw (gender_selected (gui w))) as [sub|e] eqn:Hrows;
    [|by unfold compute_avg_age in Hv; rewrite Hrows in Hv].
  set (w1 := fst (update_dash df_raw w)) in *.
  assert (scenarios (core w1) !! scenario (gui w1) = Some sc) as Hsc1
    by (by rewrite Hsid, Hcore).
  destruct (save_scenario_nodes w1 sc Hsc1 Hcfg) as (_ & Hgui & Hnodes).
  rewrite Hsid in Hnodes. simpl in Hgui, Hnodes.
  edestruct (submit_scenario_cfg (core (fst (save_scenario w1))) (scenario (gui w))
               _ sub (gender_selected (gui w)) v Hnodes)
    as (c3 & Hsub & Hget & Hdone).
  - done.
  - done.
  - simpl. rewrite lookup_insert_ne, lookup_insert_eq by done. by rewrite Hfd.
  - simpl. by rewrite lookup_insert_eq, Hsel.
  - by rewrite (compute_avg_age_idem df_raw _ sub Hrows).
  - exists c3. by rewrite Hgui, Havg.
Qed.

Lemma dashboard_average_reaches_scenario_witness :
  exists c3,
    avg_age (gui (fst (save_scenario
                         (fst (update_dash mixed_loaded (picked mixed_loaded "Female"))))))
    = PyFloat (F64.decimal 453 1)
    /\ submit 0 (core (fst (save_scenario
                             (fst (update_dash mixed_loaded
                                     (picked mixed_loaded "Female"))))))
       = (c3, Ok ())
    /\ get_node c3 0 "avg_age" = Ok (PyFloat (F64.decimal 453 1))
    /\ status <$> scenarios c3 !! 0%nat = Some DONE.
Proof.
  refine (dashboard_average_reaches_scenario mixed_loaded
            (picked mixed_loaded "Female") _ _ eq_refl eq_refl _ _);
    [discriminate | reflexivity].
Defined.

(** X20.  At start-up (lines 150-155) the default scenario holds the whole
    frame with the filter ["All"] and nothing is computed yet: the node
    [avg_age] is empty and the page shows [0].  Submitting it leaves the
    average of the whole frame in [avg_age]. *)
Theorem startup_then_submit df_raw v :
  compute_avg_age df_raw "All" = Ok v ->
  exists w c,
    startup df_raw = Ok w
    /\ read (core w) (scenario (gui w)) "filtered_df" = Ok (PyFrame df_raw)
    /\ read (core w) (scenario (gui w)) "gender_filter" = Ok (PyStr "All")
    /\ read (core w) (scenario (gui w)) "avg_age" = Ok PyNone
    /\ avg_age (gui w) = PyInt 0
    /\ submit (scenario (gui w)) (core w) = (c, Ok ())
    /\ get_node c (scenario (gui w)) "avg_age" = Ok v.
Proof.
  intros Hv. exists (opened df_raw).
  destruct (submit_scenario_cfg (core (opened df_raw)) 0%nat
              {| config := scenario_cfg;
                 data_nodes := <["gender_filter" := PyStr "All"]>
                                 {[ "filtered_df" := PyFrame df_raw ]};
                 status := CREATED |} df_raw "All" v)
    as (c & Hsub & Hget & _).
  - simpl. apply lookup_singleton_eq.
  - done.
  - done.
  - simpl. rewrite lookup_insert_ne by done. apply lookup_singleton_eq.
  - simpl. apply lookup_insert_eq.
  - done.
  - exists c. repeat split; try done.
Qed.

Lemma startup_then_submit_witness :
  exists w c,
    startup two_men = Ok w
    /\ read (core w) (scenario (gui w)) "filtered_df" = Ok (PyFrame two_men)
    /\ read (core w) (scenario (gui w)) "gender_filter" = Ok (PyStr "All")
    /\ read (core w) (scenario (gui w)) "avg_age" = Ok PyNone
    /\ avg_age (gui w) = PyInt 0
    /\ submit (scenario (gui w)) (core w) = (c, Ok ())
    /\ get_node c (scenario (gui w)) "avg_age" = Ok (PyFloat (F64.of_Z 54)).
Proof. apply (startup_then_submit two_men). reflexivity. Defined.
End Session.

Lemma committed_average_is_preview_witness :
  avg_age (gui (fst (update_dash mixed_loaded (picked mixed_loaded "Female"))))
  = PyFloat (F64.decimal 453 1)
  /\ compute_avg_age
       (filtered_df (gui (fst (update_dash mixed_loaded (picked mixed_loaded "Female")))))
       (gender_selected (gui (fst (update_dash mixed_loaded (picked mixed_loaded "Female")))))
     = Ok (PyFloat (F64.decimal 453 1)).
Proof.
  exact (committed_average_is_preview mixed_loaded (picked mixed_loaded "Female")
           _ eq_refl).
Defined.
